(** * NETRA IDS/IPS: the firewall controller ([services/firewall.py])

    A shallow embedding of [block_ip], [unblock_ip] and [list_ids_rules]
    together with the two helpers they call, [_is_windows_admin] and
    [_run_powershell], and the properties of the controller that follow
    from the code.

    Python [str] values are sequences of Unicode code points; they are
    modelled as lists of [N].  The host (operating system name, the
    answer of the privilege probe, what a spawned PowerShell does) is a
    record of oracles, and the controller runs in a small monad that
    threads the log of subprocess invocations and propagates Python
    exceptions. *)

From Stdlib Require Import List String Ascii NArith ZArith Bool Lia.
Import ListNotations.

(** ** Python strings *)

Module PyStr.

(** A code point, and a [str]: an immutable sequence of code points. *)
Definition codepoint := N.
Definition str := list codepoint.

(** [u "..."] is the [str] of an ASCII literal of the source. *)
Definition u (s : string) : str := map N_of_ascii (list_ascii_of_string s).

(** The double quote character, U+0022, as a one-character [str]. *)
Definition dq : str := [34%N].

(** U+2705 WHITE HEAVY CHECK MARK and U+274C CROSS MARK, the two
    non-ASCII characters of the messages. *)
Definition check_mark : str := [9989%N].
Definition cross_mark : str := [10060%N].

(** [a == b] on two [str]. *)
Fixpoint eqb (a b : str) : bool :=
  match a, b with
  | [], [] => true
  | x :: a', y :: b' => N.eqb x y && eqb a' b'
  | _, _ => false
  end.

(** [str.isspace] on one code point: the characters [str.strip()]
    removes (CPython's [_PyUnicode_IsWhitespace]). *)
Definition isspace (c : codepoint) : bool :=
  ((9 <=? c) && (c <=? 13)            (* \t \n \v \f \r *)
   || (28 <=? c) && (c <=? 32)        (* FS GS RS US and the space *)
   || (c =? 133) || (c =? 160)        (* NEL, NO-BREAK SPACE *)
   || (c =? 5760)                     (* OGHAM SPACE MARK *)
   || (8192 <=? c) && (c <=? 8202)    (* EN QUAD .. HAIR SPACE *)
   || (c =? 8232) || (c =? 8233)      (* LINE / PARAGRAPH SEPARATOR *)
   || (c =? 8239) || (c =? 8287)      (* NARROW NBSP, MEDIUM MATH SPACE *)
   || (c =? 12288))%N.                (* IDEOGRAPHIC SPACE *)

(** [s.lstrip()], [s.rstrip()] and [s.strip()] without argument. *)
Fixpoint lstrip (s : str) : str :=
  match s with
  | c :: s' => if isspace c then lstrip s' else s
  | [] => []
  end.

Definition rstrip (s : str) : str := rev (lstrip (rev s)).

Definition strip (s : str) : str := rstrip (lstrip s).

(** [s.lower()].  Only the ASCII capitals are mapped; every other code
    point is left as it is.  No non-ASCII character lowers to a
    sequence made of the letters of ["windows"], so the one comparison
    the controller makes on a lowered string is decided as Python
    decides it. *)
Definition lower_char (c : codepoint) : codepoint :=
  if ((65 <=? c) && (c <=? 90))%N then (c + 32)%N else c.

Definition lower (s : str) : str := map lower_char s.

(** [a or b] on two [str]: the first operand when it is non-empty. *)
Definition or_ (a b : str) : str :=
  match a with
  | [] => b
  | _ :: _ => a
  end.

(** [p] is a prefix of [s], and [needle in hay]. *)
Fixpoint prefixb (p s : str) : bool :=
  match p, s with
  | [], _ => true
  | x :: p', y :: s' => N.eqb x y && prefixb p' s'
  | _ :: _, [] => false
  end.

Fixpoint infixb (needle hay : str) : bool :=
  prefixb needle hay ||
  match hay with
  | [] => false
  | _ :: hay' => infixb needle hay'
  end.

(** The same as a proposition: [hay] is [needle] with something before
    and something after. *)
Definition contains (needle hay : str) : Prop :=
  exists pre post, hay = pre ++ needle ++ post.

End PyStr.

Import PyStr.

(** ** Exceptions and the controller's monad *)

(** The exceptions the host calls of this module can raise.  All of them
    derive from [Exception]. *)
Inductive exn : Type :=
| FileNotFoundError   (* the executable is not on the path *)
| PermissionError     (* the operating system refuses the spawn *)
| OSError             (* any other failure of the spawn *)
| ValueError          (* an argument the spawn cannot pass on *)
| UnicodeDecodeError  (* the captured output is not text *)
| AttributeError.     (* [ctypes.windll] on a host without it *)

(** What a Python call yields: a value, or an exception on its way up. *)
Inductive outcome (A : Type) : Type :=
| Return (a : A)
| Raise (e : exn).

Arguments Return {A} a.
Arguments Raise {A} e.

(** [subprocess.CompletedProcess] as [subprocess.run] fills it with
    [capture_output=True, text=True]. *)
Record CompletedProcess : Type := {
  returncode : Z;
  stdout : str;
  stderr : str
}.

(** The argument vector of a spawned process, and the log of the
    invocations of [subprocess.run], oldest first. *)
Definition argv := list str.
Definition spawn_log := list argv.

(** The host the controller runs on.  [subprocess_run] is given the log
    of the earlier invocations, so that a host whose firewall store
    changes with the commands it ran is covered. *)
Record Host : Type := {
  platform_system : str;                       (* platform.system() *)
  IsUserAnAdmin : outcome Z;                   (* ctypes.windll.shell32.IsUserAnAdmin() *)
  subprocess_run : spawn_log -> argv -> outcome CompletedProcess
}.

(** A computation reads the host, extends the log and either returns or
    raises. *)
Definition M (A : Type) : Type := Host -> spawn_log -> outcome A * spawn_log.

Definition ret {A : Type} (a : A) : M A :=
  fun _ log => (Return a, log).

Definition bind {A B : Type} (m : M A) (k : A -> M B) : M B :=
  fun h log =>
    match m h log with
    | (Return a, log') => k a h log'
    | (Raise e, log') => (Raise e, log')
    end.

(** [try: m  except Exception: handler]. *)
Definition try_except {A : Type} (m : M A) (handler : exn -> M A) : M A :=
  fun h log =>
    match m h log with
    | (Return a, log') => (Return a, log')
    | (Raise e, log') => handler e h log'
    end.

Declare Scope py_scope.
Delimit Scope py_scope with py.
Notation "x <- m ;; k" := (bind m (fun x => k))
  (at level 61, m at next level, right associativity) : py_scope.
Open Scope py_scope.

(** ** The controller *)

(** The outcome of any controller operation ([@dataclass FirewallResult];
    [command] defaults to [None]). *)
Record FirewallResult : Type := {
  ok : bool;
  message : str;
  command : option str
}.

(** [platform.system()] and the probe of shell32, as computations. *)
Definition platform_system_call : M str :=
  fun h log => (Return (platform_system h), log).

Definition shell32_IsUserAnAdmin : M Z :=
  fun h log => (IsUserAnAdmin h, log).

(** [subprocess.run(args, capture_output=True, text=True)]: the
    invocation is logged whether or not the process could be spawned. *)
Definition subprocess_run_call (args : argv) : M CompletedProcess :=
  fun h log => (subprocess_run h log args, log ++ [args]).

Definition _is_windows_admin : M bool :=
  try_except
    (r <- shell32_IsUserAnAdmin ;; ret (negb (r =? 0)%Z))
    (fun _ => ret false).

Definition powershell_argv (ps_command : str) : argv :=
  [u "powershell"; u "-NoProfile"; u "-ExecutionPolicy"; u "Bypass";
   u "-Command"; ps_command].

Definition _run_powershell (ps_command : str) : M CompletedProcess :=
  subprocess_run_call (powershell_argv ps_command).

(** The command strings, as the two f-string fragments of each build
    them. *)
Definition block_cmd (ip : str) : str :=
  (u "New-NetFirewallRule -DisplayName " ++ dq ++ u "IDS_Block_" ++ ip ++ dq ++ u " ")
  ++ (u "-Direction Inbound -Action Block -RemoteAddress " ++ ip ++ u " -Profile Any").

Definition unblock_cmd (ip : str) : str :=
  (u "Get-NetFirewallRule -DisplayName " ++ dq ++ u "IDS_Block_" ++ ip ++ dq
   ++ u " -ErrorAction SilentlyContinue | ")
  ++ u "Remove-NetFirewallRule -ErrorAction SilentlyContinue".

Definition list_cmd : str :=
  u "Get-NetFirewallRule | "
  ++ (u "Where-Object {$_.DisplayName -like " ++ dq ++ u "IDS_Block_*" ++ dq ++ u "} | ")
  ++ u "Select DisplayName,Enabled,Direction,Action | Format-Table -AutoSize".

Definition access_denied_msg : str :=
  u "Access denied. Run VS Code / PowerShell / Streamlit as **Administrator**, then try again.".

Definition unsupported_msg : str :=
  u "Firewall backend not supported on this OS.".

Definition block_ip (ip : str) (allow_real dry_run : bool) (backend : str)
  : M FirewallResult :=
  let cmd := block_cmd ip in
  if dry_run || negb allow_real then
    ret {| ok := true;
           message := u "(Dry-run) Block command prepared. Enable REAL blocking + run Streamlit/VS Code as Admin to apply.";
           command := Some cmd |}
  else
    sys <- platform_system_call ;;
    if eqb (lower sys) (u "windows") then
      admin <- _is_windows_admin ;;
      if negb admin then
        ret {| ok := false; message := access_denied_msg; command := Some cmd |}
      else
        proc <- _run_powershell cmd ;;
        if (returncode proc =? 0)%Z then
          ret {| ok := true;
                 message := check_mark ++ u " Blocked " ++ ip
                            ++ u " (Windows Firewall rule added).";
                 command := Some cmd |}
        else
          let err := or_ (strip (stderr proc)) (strip (stdout proc)) in
          ret {| ok := false;
                 message := cross_mark ++ u " Block failed: " ++ err;
                 command := Some cmd |}
    else
      ret {| ok := false; message := unsupported_msg; command := Some cmd |}.

Definition unblock_ip (ip : str) (allow_real dry_run : bool) (backend : str)
  : M FirewallResult :=
  let cmd := unblock_cmd ip in
  if dry_run || negb allow_real then
    ret {| ok := true;
           message := u "(Dry-run) Unblock command prepared. Enable REAL blocking + run as Admin to apply.";
           command := Some cmd |}
  else
    sys <- platform_system_call ;;
    if eqb (lower sys) (u "windows") then
      admin <- _is_windows_admin ;;
      if negb admin then
        ret {| ok := false; message := access_denied_msg; command := Some cmd |}
      else
        proc <- _run_powershell cmd ;;
        if (returncode proc =? 0)%Z then
          ret {| ok := true;
                 message := check_mark ++ u " Unblock attempted for " ++ ip
                            ++ u ". (If rule existed, it was removed.)";
                 command := Some cmd |}
        else
          let err := or_ (strip (stderr proc)) (strip (stdout proc)) in
          ret {| ok := false;
                 message := cross_mark ++ u " Unblock failed: " ++ err;
                 command := Some cmd |}
    else
      ret {| ok := false; message := unsupported_msg; command := Some cmd |}.

Definition list_ids_rules : M FirewallResult :=
  sys <- platform_system_call ;;
  if negb (eqb (lower sys) (u "windows")) then
    ret {| ok := false;
           message := u "Rule listing supported only on Windows.";
           command := None |}
  else
    let cmd := list_cmd in
    proc <- _run_powershell cmd ;;
    if (returncode proc =? 0)%Z then
      let out := strip (stdout proc) in
      ret {| ok := true;
             message := or_ out (u "(No IDS rules found)");
             command := Some cmd |}
    else
      ret {| ok := false;
             message := or_ (strip (stderr proc)) (strip (stdout proc));
             command := Some cmd |}.

(** ** Hosts used in the examples *)

(** A Windows host, elevated or not, whose PowerShell always answers
    [proc]. *)
Definition windows_host (admin : Z) (proc : outcome CompletedProcess) : Host :=
  {| platform_system := u "Windows";
     IsUserAnAdmin := Return admin;
     subprocess_run := fun _ _ => proc |}.

(** A Linux host: [ctypes.windll] does not exist there and there is no
    PowerShell on the path. *)
Definition linux_host : Host :=
  {| platform_system := u "Linux";
     IsUserAnAdmin := Raise AttributeError;
     subprocess_run := fun _ _ => Raise FileNotFoundError |}.

Definition completed (rc : Z) (out err : str) : outcome CompletedProcess :=
  Return {| returncode := rc; stdout := out; stderr := err |}.

Definition ip1 : str := u "203.0.113.5".

(** ** What the host decides *)

(** The test [platform.system().lower() == "windows"] of the three entry
    points, and the answer of the privilege probe once the [except]
    clause has swallowed a failing query. *)
Definition on_windows (h : Host) : bool :=
  eqb (lower (platform_system h)) (u "windows").

Definition elevated (h : Host) : bool :=
  match IsUserAnAdmin h with
  | Return r => negb (r =? 0)%Z
  | Raise _ => false
  end.

(** ** Dictionaries and joined lines *)

(** A [dict] with [str] keys, in insertion order. *)
Definition dict (V : Type) : Type := list (str * V).

(** [d.get(k)]: the value under [k], [None] when the key is missing. *)
Fixpoint dict_get {V : Type} (k : str) (d : dict V) : option V :=
  match d with
  | [] => None
  | (k', v) :: d' => if eqb k k' then Some v else dict_get k d'
  end.

(** [k in d]. *)
Definition dict_has {V : Type} (k : str) (d : dict V) : bool :=
  match dict_get k d with
  | Some _ => true
  | None => false
  end.

(** [d[k] = v]: an existing key keeps its place, a new one goes last. *)
Fixpoint dict_set {V : Type} (k : str) (v : V) (d : dict V) : dict V :=
  match d with
  | [] => [(k, v)]
  | (k', v') :: d' =>
      if eqb k k' then (k, v) :: d' else (k', v') :: dict_set k v d'
  end.

(** [sep.join(lines)]. *)
Fixpoint join (sep : str) (lines : list str) : str :=
  match lines with
  | [] => []
  | [l] => l
  | l :: ls => l ++ sep ++ join sep ls
  end.

(** The line feed, U+000A. *)
Definition nl : str := [10%N].

(** [s.endswith(suffix)], as a test and as a proposition. *)
Definition suffixb (suffix s : str) : bool := prefixb (rev suffix) (rev s).

Definition endswith (suffix s : str) : Prop := exists pre, s = pre ++ suffix.

(** ** The login gate ([services/auth.py]) *)

Module Auth.

(** What the session state holds under the key of this module: [None],
    or the record of the logged-in user, a dict of strings. *)
Inductive value : Type :=
| VNone
| VDict (d : dict str).

(** The truth value of [if auth:]: [None] and the empty dict are
    false. *)
Definition truthy (v : value) : bool :=
  match v with
  | VNone => false
  | VDict [] => false
  | VDict (_ :: _) => true
  end.

(** What the sidebar shows. *)
Inductive event : Type :=
| Subheader (s : str)
| Caption (s : str)
| Error (s : str).

(** What the user did with the widgets in this run of the script: the
    text in the input with a given label and key, and whether the
    button with a given label was pressed. *)
Record Ui : Type := {
  text_input : str -> str -> str;
  button : str -> bool
}.

(** [st.session_state] and the sidebar.  The session state has two
    kinds of entries: those the script assigns, of which this module
    reads and writes the one under its key, are in [session_state];
    those Streamlit keeps for the widgets that were given a [key], each
    holding the text of its widget, are in [widget_state].  The key of
    this module is not the key of any widget. *)
Record App : Type := {
  session_state : dict value;
  widget_state : dict str;
  sidebar : list event
}.

(** How a call ends: it returns, or one of the exceptions Streamlit uses
    to leave the script ([st.rerun()], [st.stop()]) or a [KeyError] of a
    subscript is on its way up. *)
Inductive control (A : Type) : Type :=
| Done (a : A)
| RerunException
| StopException
| KeyError (k : str).

Arguments Done {A} a.
Arguments RerunException {A}.
Arguments StopException {A}.
Arguments KeyError {A} k.

Definition Script (A : Type) : Type := Ui -> App -> control A * App.

Definition ret {A : Type} (a : A) : Script A :=
  fun _ app => (Done a, app).

Definition bind {A B : Type} (m : Script A) (k : A -> Script B) : Script B :=
  fun ui app =>
    match m ui app with
    | (Done a, app') => k a ui app'
    | (RerunException, app') => (RerunException, app')
    | (StopException, app') => (StopException, app')
    | (KeyError key, app') => (KeyError key, app')
    end.

Declare Scope st_scope.
Delimit Scope st_scope with st.
Notation "x <- m ;; k" := (bind m (fun x => k))
  (at level 61, m at next level, right associativity) : st_scope.
Notation "m ;;; k" := (bind m (fun _ => k))
  (at level 61, right associativity) : st_scope.
Local Open Scope st_scope.

(** The calls on [st.session_state]. *)
Definition state_contains (k : str) : Script bool :=
  fun _ app => (Done (dict_has k (session_state app)), app).

Definition state_setitem (k : str) (v : value) : Script unit :=
  fun _ app =>
    (Done tt, {| session_state := dict_set k v (session_state app);
                 widget_state := widget_state app;
                 sidebar := sidebar app |}).

Definition state_getitem (k : str) : Script value :=
  fun _ app =>
    match dict_get k (session_state app) with
    | Some v => (Done v, app)
    | None => (KeyError k, app)
    end.

Definition state_get (k : str) : Script value :=
  fun _ app =>
    match dict_get k (session_state app) with
    | Some v => (Done v, app)
    | None => (Done VNone, app)
    end.

(** The calls on [st.sidebar], [st.rerun()] and [st.stop()]. *)
Definition show (e : event) : Script unit :=
  fun _ app =>
    (Done tt, {| session_state := session_state app;
                 widget_state := widget_state app;
                 sidebar := sidebar app ++ [e] |}).

(** [st.sidebar.text_input(label, key=key)]: the text of the widget is
    returned and registered in the session state under [key]. *)
Definition sidebar_text_input (label key : str) : Script str :=
  fun ui app =>
    (Done (text_input ui label key),
     {| session_state := session_state app;
        widget_state := dict_set key (text_input ui label key) (widget_state app);
        sidebar := sidebar app |}).

Definition sidebar_button (label : str) : Script bool :=
  fun ui app => (Done (button ui label), app).

Definition rerun {A : Type} : Script A := fun _ app => (RerunException, app).

Definition stop {A : Type} : Script A := fun _ app => (StopException, app).

(** [d[k]] on a dict of the module. *)
Definition subscript {V : Type} (d : dict V) (k : str) : Script V :=
  fun _ app =>
    match dict_get k d with
    | Some v => (Done v, app)
    | None => (KeyError k, app)
    end.

Definition USERS : dict (dict str) :=
  [ (u "admin",  [(u "role", u "admin");  (u "password", u "admin123")]);
    (u "viewer", [(u "role", u "viewer"); (u "password", u "viewer123")]) ].

Definition AUTH_KEY : str := u "ids_auth_v1".

(** U+1F510 CLOSED LOCK WITH KEY. *)
Definition lock_sign : str := [128272%N].

Definition require_login : Script value :=
  present <- state_contains AUTH_KEY ;;
  (if negb present then state_setitem AUTH_KEY VNone else ret tt) ;;;
  auth <- state_getitem AUTH_KEY ;;
  if truthy auth then ret auth
  else
    show (Subheader (lock_sign ++ u " Login")) ;;;
    usr <- sidebar_text_input (u "Username") (u "login_user") ;;
    p <- sidebar_text_input (u "Password") (u "login_pass") ;;
    btn <- sidebar_button (u "Login") ;;
    (if btn then
       good <- (if dict_has usr USERS then
                  rec <- subscript USERS usr ;;
                  pw <- subscript rec (u "password") ;;
                  ret (eqb pw p)
                else ret false) ;;
       if good then
         rec <- subscript USERS usr ;;
         role <- subscript rec (u "role") ;;
         state_setitem AUTH_KEY
           (VDict [(u "username", usr); (u "role", role)]) ;;;
         rerun
       else show (Error (u "Invalid credentials"))
     else ret tt) ;;;
    stop.

(** [str(auth.get(k))] inside an f-string. *)
Definition get_text (auth : value) (k : str) : str :=
  match auth with
  | VDict d =>
      match dict_get k d with
      | Some s => s
      | None => u "None"
      end
  | VNone => u "None"
  end.

Definition logout_button : Script unit :=
  auth <- state_get AUTH_KEY ;;
  if truthy auth then
    show (Caption (u "Logged in as: **" ++ get_text auth (u "username")
                   ++ u "** (" ++ get_text auth (u "role") ++ u ")")) ;;;
    pressed <- sidebar_button (u "Logout") ;;
    if pressed then
      state_setitem AUTH_KEY VNone ;;; rerun
    else ret tt
  else ret tt.

(** [is_admin()] only reads the session state: [auth] is the stored
    value, or the empty dict when that is missing or false. *)
Definition is_admin (app : App) : bool :=
  let stored :=
    match dict_get AUTH_KEY (session_state app) with
    | Some v => v
    | None => VNone
    end in
  let auth := if truthy stored then stored else VDict [] in
  match auth with
  | VDict d =>
      match dict_get (u "role") d with
      | Some role => eqb role (u "admin")
      | None => false
      end
  | VNone => false
  end.

(** *** What a call of [require_login] reads *)

(** The value under [AUTH_KEY], [None] when the key is missing. *)
Definition stored_auth (app : App) : value :=
  match dict_get AUTH_KEY (session_state app) with
  | Some v => v
  | None => VNone
  end.

(** The role [USERS] gives to a user name and a password: the role of
    the entry under that name when its password is the one typed. *)
Definition login_role (usr p : str) : option str :=
  match dict_get usr USERS with
  | Some rec =>
      match dict_get (u "password") rec, dict_get (u "role") rec with
      | Some pw, Some role => if eqb pw p then Some role else None
      | _, _ => None
      end
  | None => None
  end.

(** The record a successful login stores. *)
Definition auth_record (usr role : str) : value :=
  VDict [(u "username", usr); (u "role", role)].

End Auth.

(** ** The alert explainer ([services/ai_explainer.py]) *)

Module Explainer.

(** A value of the alert record.  The explainer only takes [str()] and
    [bool()] of the values it reads, so any object other than [None], a
    [bool] or a [str] is given by the text [str()] makes of it and by
    its truth value. *)
Inductive value : Type :=
| VNone
| VBool (b : bool)
| VStr (s : str)
| VObj (text : str) (truth : bool).

(** [str(v)], also what an f-string puts for [{v}]. *)
Definition str_ (v : value) : str :=
  match v with
  | VNone => u "None"
  | VBool true => u "True"
  | VBool false => u "False"
  | VStr s => s
  | VObj text _ => text
  end.

(** [bool(v)]. *)
Definition bool_ (v : value) : bool :=
  match v with
  | VNone => false
  | VBool b => b
  | VStr s => negb (eqb s [])
  | VObj _ truth => truth
  end.

(** [alert.get(k, default)]. *)
Definition get (alert : dict value) (k : str) (default : value) : value :=
  match dict_get k alert with
  | Some v => v
  | None => default
  end.

(** [s.lower()], exact on every code point whose lowercase has an ASCII
    character in it: the capitals A to Z, U+0130 (which lowers to [i]
    followed by U+0307) and U+212A (the Kelvin sign, which lowers to
    [k]).  Any other code point lowers to code points outside ASCII and
    is left as it is; the tests of this module compare lowered strings
    with ASCII words only, and so do not tell the difference. *)
Definition lower_codepoint (c : codepoint) : str :=
  if (c =? 304)%N then [105%N; 775%N]
  else if (c =? 8490)%N then [107%N]
  else [lower_char c].

Definition str_lower (s : str) : str := flat_map lower_codepoint s.

(** [x in xs] for a string and a list of strings. *)
Definition in_list (x : str) (xs : list str) : bool := existsb (eqb x) xs.

Record ExplainResult : Type := {
  ok : bool;
  message : str;
  model : option str;
  used_ai : bool
}.

Definition _rule_to_attack_type (rule_name : option str) : str :=
  let name :=
    str_lower (match rule_name with
               | Some (c :: r) => c :: r
               | _ => []
               end) in
  if infixb (u "brute") name then
    u "Brute Force Login / Credential Attack"
  else if infixb (u "port") name then
    u "Port Scanning / Reconnaissance"
  else if infixb (u "traffic") name || infixb (u "ddos") name then
    u "Traffic Spike / Possible DDoS"
  else if infixb (u "cpu") name then
    u "CPU Spike / Possible Malware or Crypto-mining"
  else if infixb (u "file") name || infixb (u "integrity") name then
    u "Suspicious File Change / Possible Tampering"
  else
    u "Suspicious Activity".

(** U+1F9E0 BRAIN, U+2192 RIGHTWARDS ARROW, and U+26A0 WARNING SIGN
    followed by U+FE0F. *)
Definition brain_sign : str := [129504%N].
Definition arrow_sign : str := [8594%N].
Definition warning_sign : str := [9888%N; 65039%N].

(** The list [lines] of [_template_explain] when it is joined. *)
Definition _template_lines (alert : dict value) (attack_type : str) : list str :=
  let ip := str_ (get alert (u "src_ip") (VStr [])) in
  let rule := str_ (get alert (u "rule") (VStr [])) in
  let sev := str_ (get alert (u "severity") (VStr [])) in
  let det := str_ (get alert (u "details") (VStr [])) in
  let ml := bool_ (get alert (u "ml_anomaly") (VBool false)) in
  let score := get alert (u "anomaly_score") (VStr (u "N/A")) in
  let rec := if in_list (str_lower sev) [u "high"; u "medium"]
             then u "Recommended" else u "Optional" in
  [ u "### " ++ brain_sign ++ u " Alert Explanation (Template)";
    u "**Attack Type (likely):** " ++ attack_type;
    [];
    u "**What happened:**";
    u "- The IDS rule **" ++ rule ++ u "** was triggered for source IP **"
      ++ ip ++ u "**.";
    u "- Severity is **" ++ sev ++ u "**." ]
  ++ (if negb (eqb det []) then [u "- Rule detail: " ++ det] else [])
  ++ [ [];
       u "**Evidence from this event:**";
       u "- ML anomaly flag: **" ++ str_ (VBool ml) ++ u "** | anomaly score: **"
         ++ str_ score ++ u "**";
       [];
       u "**Risk / Impact:**" ]
  ++ (if infixb (u "Brute") attack_type then
        [ u "- Account compromise risk if password guessing continues.";
          u "- Could lead to unauthorized access." ]
      else if infixb (u "Port") attack_type then
        [ u "- Recon phase: attacker mapping open services/ports.";
          u "- Could lead to exploitation of vulnerable ports." ]
      else if infixb (u "DDoS") attack_type || infixb (u "Traffic") attack_type then
        [ u "- Service slowdown / downtime risk.";
          u "- May exhaust bandwidth/resources." ]
      else if infixb (u "CPU") attack_type then
        [ u "- Possible malware/crypto-miner consuming CPU.";
          u "- Performance degradation and suspicious process activity." ]
      else
        [ u "- Suspicious activity that may indicate compromise or probing." ])
  ++ [ [];
       u "**Block Recommendation:** " ++ rec;
       u "- Blocking is typically recommended if the IP is unknown/untrusted, repeated, or causing disruption.";
       u "- If IP belongs to your own LAN user/device, verify first before blocking.";
       [];
       u "**What to check next (quick):**";
       u "1) Check if this IP is internal or external (LAN vs internet).";
       u "2) Look for repeated events from the same IP in Events table.";
       u "3) If repeated High/Medium alerts " ++ arrow_sign ++ u " block (admin).";
       u "4) Confirm firewall rule exists in Windows Firewall rules list." ].

Definition _template_explain (alert : dict value) (attack_type : str) : str :=
  join nl (_template_lines alert attack_type).

(** *** The last two sections of the template *)

(** The value of [rec]. *)
Definition recommendation (alert : dict value) : str :=
  let sev := str_ (get alert (u "severity") (VStr [])) in
  if in_list (str_lower sev) [u "high"; u "medium"]
  then u "Recommended" else u "Optional".

(** The lines appended under "**Risk / Impact:**". *)
Definition risk_lines (attack_type : str) : list str :=
  if infixb (u "Brute") attack_type then
    [ u "- Account compromise risk if password guessing continues.";
      u "- Could lead to unauthorized access." ]
  else if infixb (u "Port") attack_type then
    [ u "- Recon phase: attacker mapping open services/ports.";
      u "- Could lead to exploitation of vulnerable ports." ]
  else if infixb (u "DDoS") attack_type || infixb (u "Traffic") attack_type then
    [ u "- Service slowdown / downtime risk.";
      u "- May exhaust bandwidth/resources." ]
  else if infixb (u "CPU") attack_type then
    [ u "- Possible malware/crypto-miner consuming CPU.";
      u "- Performance degradation and suspicious process activity." ]
  else
    [ u "- Suspicious activity that may indicate compromise or probing." ].

(** The lines appended after the risk section, from the empty line
    before the recommendation to the end. *)
Definition closing_lines (rec : str) : list str :=
  [ [];
    u "**Block Recommendation:** " ++ rec;
    u "- Blocking is typically recommended if the IP is unknown/untrusted, repeated, or causing disruption.";
    u "- If IP belongs to your own LAN user/device, verify first before blocking.";
    [];
    u "**What to check next (quick):**";
    u "1) Check if this IP is internal or external (LAN vs internet).";
    u "2) Look for repeated events from the same IP in Events table.";
    u "3) If repeated High/Medium alerts " ++ arrow_sign ++ u " block (admin).";
    u "4) Confirm firewall rule exists in Windows Firewall rules list." ].

(** What the block under [try:] does once the prompt is built: an
    exception is raised somewhere in it (the import, the client, the
    request, reading the answer), or a response comes back, with its
    [output_text] when it has that attribute and with the text [str()]
    makes of it. *)
Inductive ai_outcome : Type :=
| AiRaises (error_text : str)                       (* str(e) *)
| AiResponse (output_text : option str) (repr : str).

(** The process environment and the OpenAI service: [os.getenv(name)],
    and what a request with a given key, model and prompt does. *)
Record Env : Type := {
  getenv : str -> option str;
  responses_create : str -> str -> str -> ai_outcome
}.

(** [a or b] and [if a:] on the optional strings [os.getenv] returns. *)
Definition or_opt (a b : option str) : option str :=
  match a with
  | Some (_ :: _) => a
  | _ => b
  end.

(** The f-string sent as [input]. *)
Definition prompt_text (alert : dict value) (ip rule sev det : str)
  (ml : bool) (score : value) : str :=
  nl ++ join nl
    [ u "You are a cybersecurity SOC analyst.";
      u "Explain this IDS alert in simple, professional English (bullet points + short paragraphs).";
      u "Include:";
      u "- What likely happened (attack type)";
      u "- Evidence from fields";
      u "- Risk/impact";
      u "- Why blocking might be recommended (or not)";
      u "- What to check next (2-4 steps)";
      u "Keep it student-friendly.";
      [];
      u "ALERT DATA:";
      u "Time: " ++ str_ (get alert (u "time") VNone);
      u "Source IP: " ++ ip;
      u "Rule Triggered: " ++ rule;
      u "Rule Type: " ++ str_ (get alert (u "type") VNone);
      u "Severity: " ++ sev;
      u "Details: " ++ det;
      u "ML Anomaly: " ++ str_ (VBool ml);
      u "Anomaly Score: " ++ str_ score ]
  ++ nl.

(** The local variables [api_key], [model] and [prompt] of
    [explain_alert]. *)
Definition api_key (env : Env) : option str :=
  or_opt (getenv env (u "OPENAI_API_KEY")) (getenv env (u "IDS_OPENAI_API_KEY")).

Definition ai_model (env : Env) : str :=
  match getenv env (u "IDS_AI_MODEL") with
  | Some m => m
  | None => u "gpt-4o-mini"
  end.

Definition prompt (alert : dict value) : str :=
  let rule := str_ (get alert (u "rule") (VStr [])) in
  let ip := str_ (get alert (u "src_ip") (VStr [])) in
  let sev := str_ (get alert (u "severity") (VStr [])) in
  let det := str_ (get alert (u "details") (VStr [])) in
  let ml := bool_ (get alert (u "ml_anomaly") (VBool false)) in
  let score := get alert (u "anomaly_score") VNone in
  prompt_text alert ip rule sev det ml score.

(** The result of the [except] branch for an exception whose text is
    [error_text]. *)
Definition fallback_result (alert : dict value) (attack_type model : str)
  (error_text : str) : ExplainResult :=
  {| ok := true;
     message := _template_explain alert attack_type
                ++ nl ++ nl ++ u "(" ++ warning_sign
                ++ u " AI failed, fallback used. Error: " ++ error_text ++ u ")";
     model := Some model;
     used_ai := false |}.

Definition explain_alert (env : Env) (alert : dict value) : ExplainResult :=
  let rule := str_ (get alert (u "rule") (VStr [])) in
  let attack_type := _rule_to_attack_type (Some rule) in
  let model := ai_model env in
  match api_key env with
  | Some (k :: key) =>
      match responses_create env (k :: key) model (prompt alert) with
      | AiRaises error_text =>
          fallback_result alert attack_type model error_text
      | AiResponse output_text repr =>
          let text :=
            match output_text with
            | Some t => strip t
            | None => repr
            end in
          match text with
          | [] => fallback_result alert attack_type model (u "Empty AI response")
          | _ :: _ =>
              {| ok := true; message := text; model := Some model;
                 used_ai := true |}
          end
      end
  | _ =>
      {| ok := true;
         message := _template_explain alert attack_type;
         model := None;
         used_ai := false |}
  end.

End Explainer.

(** * Properties *)

(** ** Strings *)

Lemma eqb_eq (a b : str) : eqb a b = true <-> a = b.
Proof.
  revert b; induction a as [|x a IH]; intros [|y b]; simpl; split;
    try congruence; try reflexivity.
  - intros H. apply andb_true_iff in H as [Hx Hab].
    apply N.eqb_eq in Hx. apply IH in Hab. congruence.
  - intros H. injection H as -> ->. rewrite N.eqb_refl. simpl. now apply IH.
Qed.

Lemma prefixb_app (p s : str) :
  prefixb p s = true <-> exists post, s = p ++ post.
Proof.
  revert s; induction p as [|x p IH]; intros s; simpl.
  - split; [intros _; now exists s | reflexivity].
  - destruct s as [|y s].
    + split; [discriminate | intros [post H]; discriminate].
    + rewrite andb_true_iff, N.eqb_eq, IH. split.
      * intros [-> [post ->]]. now exists post.
      * intros [post H]. injection H as -> ->. split; [reflexivity | now exists post].
Qed.

Lemma infixb_contains (needle hay : str) :
  infixb needle hay = true <-> contains needle hay.
Proof.
  unfold contains. induction hay as [|c hay IH]; simpl.
  - rewrite orb_false_r, prefixb_app. split.
    + intros [post H]. now exists [], post.
    + intros [[|x pre] [post H]]; [now exists post | discriminate].
  - rewrite orb_true_iff, prefixb_app, IH. split.
    + intros [[post H] | [pre [post H]]].
      * now exists [], post.
      * exists (c :: pre), post. simpl. now rewrite H.
    + intros [[|x pre] [post H]].
      * left. now exists post.
      * right. simpl in H. injection H as _ ->. now exists pre, post.
Qed.

Lemma contains_suffix (pre needle : str) : contains needle (pre ++ needle).
Proof. exists pre, []. now rewrite app_nil_r. Qed.

(** [lstrip] removes a run of whitespace from the front and leaves a
    string that does not start with whitespace. *)
Lemma lstrip_split (s : str) :
  exists pre, s = pre ++ lstrip s /\ forallb isspace pre = true.
Proof.
  induction s as [|c s [pre [Hs Hpre]]]; simpl.
  - now exists [].
  - destruct (isspace c) eqn:Hc.
    + exists (c :: pre). simpl. rewrite Hc, Hpre. split; [now f_equal | reflexivity].
    + now exists [].
Qed.

Lemma lstrip_head (s : str) (c : codepoint) (t : str) :
  lstrip s = c :: t -> isspace c = false.
Proof.
  induction s as [|d s IH]; simpl; [discriminate|].
  destruct (isspace d) eqn:Hd; [exact IH|].
  intros H. injection H as <- _. exact Hd.
Qed.

Lemma rstrip_split (s : str) :
  exists post, s = rstrip s ++ post /\ forallb isspace post = true.
Proof.
  unfold rstrip. destruct (lstrip_split (rev s)) as [pre [Hs Hpre]].
  exists (rev pre). split.
  - rewrite <- rev_app_distr, <- Hs. now rewrite rev_involutive.
  - rewrite forallb_forall in *. intros x Hx. apply Hpre. now apply in_rev.
Qed.

(** [s.strip()] is [s] without a run of whitespace at each end. *)
Lemma strip_split (s : str) :
  exists pre post,
    s = pre ++ strip s ++ post
    /\ forallb isspace pre = true /\ forallb isspace post = true.
Proof.
  unfold strip.
  destruct (lstrip_split s) as [pre [Hs Hpre]].
  destruct (rstrip_split (lstrip s)) as [post [Hl Hpost]].
  exists pre, post. repeat split; try assumption.
  now rewrite <- Hl.
Qed.

Lemma strip_contained (s : str) : contains (strip s) s.
Proof.
  destruct (strip_split s) as [pre [post [H _]]]. now exists pre, post.
Qed.

(** What [strip] returns neither starts nor ends with whitespace. *)
Lemma strip_head (s : str) (c : codepoint) (t : str) :
  strip s = c :: t -> isspace c = false.
Proof.
  unfold strip. intros H.
  destruct (rstrip_split (lstrip s)) as [post [Hl _]].
  rewrite H in Hl. simpl in Hl. exact (lstrip_head _ _ _ Hl).
Qed.

Lemma strip_last (s : str) (t : str) (c : codepoint) :
  strip s = t ++ [c] -> isspace c = false.
Proof.
  unfold strip, rstrip. intros H.
  apply (f_equal (@rev codepoint)) in H.
  rewrite rev_involutive, rev_app_distr in H. simpl in H.
  exact (lstrip_head _ _ _ H).
Qed.

(** ** The helpers *)

(** The privilege probe never raises and spawns nothing: a failing
    query counts as unprivileged. *)
Lemma is_windows_admin_run (h : Host) (log : spawn_log) :
  _is_windows_admin h log = (Return (elevated h), log).
Proof.
  unfold _is_windows_admin, try_except, bind, ret, shell32_IsUserAnAdmin, elevated.
  now destruct (IsUserAnAdmin h).
Qed.

(** The executor logs its invocation and hands on what the host
    answers, a raise included. *)
Lemma run_powershell_run (c : str) (h : Host) (log : spawn_log) :
  _run_powershell c h log
  = (subprocess_run h log (powershell_argv c), log ++ [powershell_argv c]).
Proof. reflexivity. Qed.

(** *** The run of each entry point, down to the host's answers *)

Lemma block_ip_run (ip : str) (ar dr : bool) (b : str) (h : Host) (log : spawn_log) :
  block_ip ip ar dr b h log
  = if dr || negb ar then
      (Return {| ok := true;
                 message := u "(Dry-run) Block command prepared. Enable REAL blocking + run Streamlit/VS Code as Admin to apply.";
                 command := Some (block_cmd ip) |}, log)
    else if on_windows h then
      if elevated h then
        match subprocess_run h log (powershell_argv (block_cmd ip)) with
        | Return proc =>
            (Return
               (if (returncode proc =? 0)%Z then
                  {| ok := true;
                     message := check_mark ++ u " Blocked " ++ ip
                                ++ u " (Windows Firewall rule added).";
                     command := Some (block_cmd ip) |}
                else
                  {| ok := false;
                     message := cross_mark ++ u " Block failed: "
                                ++ or_ (strip (stderr proc)) (strip (stdout proc));
                     command := Some (block_cmd ip) |}),
             log ++ [powershell_argv (block_cmd ip)])
        | Raise e => (Raise e, log ++ [powershell_argv (block_cmd ip)])
        end
      else
        (Return {| ok := false; message := access_denied_msg;
                   command := Some (block_cmd ip) |}, log)
    else
      (Return {| ok := false; message := unsupported_msg;
                 command := Some (block_cmd ip) |}, log).
Proof.
  unfold block_ip, on_windows.
  destruct (dr || negb ar); [reflexivity|].
  unfold bind at 1. unfold platform_system_call.
  destruct (eqb (lower (platform_system h)) (u "windows")); [|reflexivity].
  unfold bind at 1. rewrite is_windows_admin_run.
  destruct (elevated h); [|reflexivity].
  cbv beta iota delta [negb]. unfold bind at 1. rewrite run_powershell_run.
  destruct (subprocess_run h log (powershell_argv (block_cmd ip))) as [proc|e];
    [|reflexivity].
  now destruct (returncode proc =? 0)%Z.
Qed.

Lemma unblock_ip_run (ip : str) (ar dr : bool) (b : str) (h : Host) (log : spawn_log) :
  unblock_ip ip ar dr b h log
  = if dr || negb ar then
      (Return {| ok := true;
                 message := u "(Dry-run) Unblock command prepared. Enable REAL blocking + run as Admin to apply.";
                 command := Some (unblock_cmd ip) |}, log)
    else if on_windows h then
      if elevated h then
        match subprocess_run h log (powershell_argv (unblock_cmd ip)) with
        | Return proc =>
            (Return
               (if (returncode proc =? 0)%Z then
                  {| ok := true;
                     message := check_mark ++ u " Unblock attempted for " ++ ip
                                ++ u ". (If rule existed, it was removed.)";
                     command := Some (unblock_cmd ip) |}
                else
                  {| ok := false;
                     message := cross_mark ++ u " Unblock failed: "
                                ++ or_ (strip (stderr proc)) (strip (stdout proc));
                     command := Some (unblock_cmd ip) |}),
             log ++ [powershell_argv (unblock_cmd ip)])
        | Raise e => (Raise e, log ++ [powershell_argv (unblock_cmd ip)])
        end
      else
        (Return {| ok := false; message := access_denied_msg;
                   command := Some (unblock_cmd ip) |}, log)
    else
      (Return {| ok := false; message := unsupported_msg;
                 command := Some (unblock_cmd ip) |}, log).
Proof.
  unfold unblock_ip, on_windows.
  destruct (dr || negb ar); [reflexivity|].
  unfold bind at 1. unfold platform_system_call.
  destruct (eqb (lower (platform_system h)) (u "windows")); [|reflexivity].
  unfold bind at 1. rewrite is_windows_admin_run.
  destruct (elevated h); [|reflexivity].
  cbv beta iota delta [negb]. unfold bind at 1. rewrite run_powershell_run.
  destruct (subprocess_run h log (powershell_argv (unblock_cmd ip))) as [proc|e];
    [|reflexivity].
  now destruct (returncode proc =? 0)%Z.
Qed.

Lemma list_ids_rules_run (h : Host) (log : spawn_log) :
  list_ids_rules h log
  = if on_windows h then
      match subprocess_run h log (powershell_argv list_cmd) with
      | Return proc =>
          (Return
             (if (returncode proc =? 0)%Z then
                {| ok := true;
                   message := or_ (strip (stdout proc)) (u "(No IDS rules found)");
                   command := Some list_cmd |}
              else
                {| ok := false;
                   message := or_ (strip (stderr proc)) (strip (stdout proc));
                   command := Some list_cmd |}),
           log ++ [powershell_argv list_cmd])
      | Raise e => (Raise e, log ++ [powershell_argv list_cmd])
      end
    else
      (Return {| ok := false;
                 message := u "Rule listing supported only on Windows.";
                 command := None |}, log).
Proof.
  unfold list_ids_rules, on_windows.
  unfold bind at 1. unfold platform_system_call.
  destruct (eqb (lower (platform_system h)) (u "windows")); [|reflexivity].
  cbv beta iota delta [negb]. unfold bind at 1. rewrite run_powershell_run.
  destruct (subprocess_run h log (powershell_argv list_cmd)) as [proc|e];
    [|reflexivity].
  now destruct (returncode proc =? 0)%Z.
Qed.

Lemma block_cmd_text (ip : str) :
  block_cmd ip
  = u "New-NetFirewallRule -DisplayName " ++ dq ++ u "IDS_Block_" ++ ip ++ dq
    ++ u " -Direction Inbound -Action Block -RemoteAddress " ++ ip
    ++ u " -Profile Any".
Proof. unfold block_cmd. repeat rewrite <- app_assoc. reflexivity. Qed.

Lemma unblock_cmd_text (ip : str) :
  unblock_cmd ip
  = u "Get-NetFirewallRule -DisplayName " ++ dq ++ u "IDS_Block_" ++ ip ++ dq
    ++ u " -ErrorAction SilentlyContinue | Remove-NetFirewallRule -ErrorAction SilentlyContinue".
Proof. unfold unblock_cmd. repeat rewrite <- app_assoc. reflexivity. Qed.

(** Both commands name the rule [IDS_Block_<ip>]. *)
Lemma block_cmd_names_rule (ip : str) :
  contains (u "IDS_Block_" ++ ip) (block_cmd ip).
Proof.
  rewrite block_cmd_text.
  exists (u "New-NetFirewallRule -DisplayName " ++ dq).
  eexists. repeat rewrite <- app_assoc. reflexivity.
Qed.

Lemma unblock_cmd_names_rule (ip : str) :
  contains (u "IDS_Block_" ++ ip) (unblock_cmd ip).
Proof.
  rewrite unblock_cmd_text.
  exists (u "Get-NetFirewallRule -DisplayName " ++ dq).
  eexists. repeat rewrite <- app_assoc. reflexivity.
Qed.

Lemma access_denied_msg_says_so : contains (u "Access denied") access_denied_msg.
Proof. apply infixb_contains. vm_compute. reflexivity. Qed.

Lemma unsupported_msg_says_so : contains (u "not supported") unsupported_msg.
Proof. apply infixb_contains. vm_compute. reflexivity. Qed.

(** A returned result of [block_ip] or [unblock_ip] carries the command
    that was built, and the log grew by at most that one invocation. *)
Lemma command_run_block
  (ip : str) (ar dr : bool) (b : str) (h : Host) (log : spawn_log)
  (r : FirewallResult) (log' : spawn_log) :
  block_ip ip ar dr b h log = (Return r, log') ->
  command r = Some (block_cmd ip)
  /\ (log' = log \/ log' = log ++ [powershell_argv (block_cmd ip)]).
Proof.
  rewrite block_ip_run.
  destruct (dr || negb ar), (on_windows h), (elevated h);
    try (intros H; injection H as <- <-; split; [reflexivity | now left]).
  destruct (subprocess_run h log (powershell_argv (block_cmd ip))) as [p|];
    [|discriminate].
  intros H. injection H as <- <-.
  split; [now destruct (returncode p =? 0)%Z | now right].
Qed.

Lemma command_run_unblock
  (ip : str) (ar dr : bool) (b : str) (h : Host) (log : spawn_log)
  (r : FirewallResult) (log' : spawn_log) :
  unblock_ip ip ar dr b h log = (Return r, log') ->
  command r = Some (unblock_cmd ip)
  /\ (log' = log \/ log' = log ++ [powershell_argv (unblock_cmd ip)]).
Proof.
  rewrite unblock_ip_run.
  destruct (dr || negb ar), (on_windows h), (elevated h);
    try (intros H; injection H as <- <-; split; [reflexivity | now left]).
  destruct (subprocess_run h log (powershell_argv (unblock_cmd ip))) as [p|];
    [|discriminate].
  intros H. injection H as <- <-.
  split; [now destruct (returncode p =? 0)%Z | now right].
Qed.

(** ** The controller *)

(** C1, as amended.  The controller has no handler around the executor:
    an exception leaves [block_ip], [unblock_ip] or [list_ids_rules]
    exactly when the executor was reached and the call of
    [subprocess.run] raised it, be it because the process could not be
    spawned or for any other reason (captured output that cannot be
    decoded, an argument that cannot be passed on), and it is that
    exception, unchanged.  On every other input and host answer the
    entry point returns a [FirewallResult]. *)
Theorem controller_raises_iff_spawn_fails
  (ip : str) (ar dr : bool) (b : str) (h : Host) (log : spawn_log) (e : exn) :
  (fst (block_ip ip ar dr b h log) = Raise e
   <-> ar = true /\ dr = false /\ on_windows h = true /\ elevated h = true
       /\ subprocess_run h log (powershell_argv (block_cmd ip)) = Raise e)
  /\ (fst (unblock_ip ip ar dr b h log) = Raise e
      <-> ar = true /\ dr = false /\ on_windows h = true /\ elevated h = true
          /\ subprocess_run h log (powershell_argv (unblock_cmd ip)) = Raise e)
  /\ (fst (list_ids_rules h log) = Raise e
      <-> on_windows h = true
          /\ subprocess_run h log (powershell_argv list_cmd) = Raise e).
Proof.
  rewrite block_ip_run, unblock_ip_run, list_ids_rules_run.
  repeat split.
  - destruct ar, dr; simpl in *; try discriminate; reflexivity.
  - destruct ar, dr; simpl in *; try discriminate; reflexivity.
  - destruct ar, dr, (on_windows h); simpl in *; try discriminate; reflexivity.
  - destruct ar, dr, (on_windows h), (elevated h); simpl in *;
      try discriminate; reflexivity.
  - destruct ar, dr, (on_windows h), (elevated h); simpl in *;
      try discriminate.
    destruct (subprocess_run h log (powershell_argv (block_cmd ip)));
      simpl in *; congruence.
  - intros (-> & -> & -> & -> & ->). reflexivity.
  - destruct ar, dr; simpl in *; try discriminate; reflexivity.
  - destruct ar, dr; simpl in *; try discriminate; reflexivity.
  - destruct ar, dr, (on_windows h); simpl in *; try discriminate; reflexivity.
  - destruct ar, dr, (on_windows h), (elevated h); simpl in *;
      try discriminate; reflexivity.
  - destruct ar, dr, (on_windows h), (elevated h); simpl in *;
      try discriminate.
    destruct (subprocess_run h log (powershell_argv (unblock_cmd ip)));
      simpl in *; congruence.
  - intros (-> & -> & -> & -> & ->). reflexivity.
  - destruct (on_windows h); simpl in *; try discriminate; reflexivity.
  - destruct (on_windows h); simpl in *; try discriminate.
    destruct (subprocess_run h log (powershell_argv list_cmd));
      simpl in *; congruence.
  - intros (-> & ->). reflexivity.
Qed.

(** C1, as stated, fails: on an elevated Windows host where PowerShell
    cannot be spawned, each of the three entry points raises
    [FileNotFoundError] instead of returning a result with [ok] false. *)
Lemma spawn_failure_escapes :
  fst (block_ip ip1 true false (u "auto")
         (windows_host 1 (Raise FileNotFoundError)) [])
  = Raise FileNotFoundError
  /\ fst (unblock_ip ip1 true false (u "auto")
            (windows_host 1 (Raise FileNotFoundError)) [])
     = Raise FileNotFoundError
  /\ fst (list_ids_rules (windows_host 1 (Raise FileNotFoundError)) [])
     = Raise FileNotFoundError
  /\ ~ (exists r,
          fst (block_ip ip1 true false (u "auto")
                 (windows_host 1 (Raise FileNotFoundError)) [])
          = Return r
          /\ ok r = false).
Proof.
  repeat split; try (vm_compute; reflexivity).
  intros [r [H _]]. vm_compute in H. discriminate.
Qed.

(** C2.  With [dry_run] set, [block_ip] returns, for every [ip] and
    every [allow_real], a result with [ok] true, a message containing
    "Dry-run" and a command containing the rule name [IDS_Block_<ip>];
    the log of spawned processes is left as it was. *)
Theorem block_dry_run_prepares
  (ip : str) (ar : bool) (b : str) (h : Host) (log : spawn_log) :
  exists r,
    block_ip ip ar true b h log = (Return r, log)
    /\ ok r = true
    /\ contains (u "Dry-run") (message r)
    /\ exists cmd, command r = Some cmd /\ contains (u "IDS_Block_" ++ ip) cmd.
Proof.
  rewrite block_ip_run. cbn [orb]. eexists. split; [reflexivity|].
  cbn [ok message command]. repeat split.
  - apply infixb_contains. vm_compute. reflexivity.
  - exists (block_cmd ip). split; [reflexivity | apply block_cmd_names_rule].
Qed.

(** C3.  On Windows, in REAL mode and without elevation, [block_ip] and
    [unblock_ip] return [ok] false with the access-denied message and
    the command, and spawn nothing. *)
Theorem unprivileged_real_mode_denied
  (ip b : str) (h : Host) (log : spawn_log) :
  on_windows h = true ->
  elevated h = false ->
  block_ip ip true false b h log
  = (Return {| ok := false; message := access_denied_msg;
               command := Some (block_cmd ip) |}, log)
  /\ unblock_ip ip true false b h log
     = (Return {| ok := false; message := access_denied_msg;
                  command := Some (unblock_cmd ip) |}, log)
  /\ contains (u "Access denied") access_denied_msg.
Proof.
  intros Hw He. rewrite block_ip_run, unblock_ip_run, Hw, He. cbn [orb negb].
  repeat split. apply access_denied_msg_says_so.
Qed.

Lemma unprivileged_real_mode_denied_witness :
  block_ip ip1 true false (u "auto") (windows_host 0 (completed 0 [] [])) []
  = (Return {| ok := false; message := access_denied_msg;
               command := Some (block_cmd ip1) |}, [])
  /\ unblock_ip ip1 true false (u "auto") (windows_host 0 (completed 0 [] [])) []
     = (Return {| ok := false; message := access_denied_msg;
                  command := Some (unblock_cmd ip1) |}, [])
  /\ contains (u "Access denied") access_denied_msg.
Proof.
  apply (unprivileged_real_mode_denied ip1 (u "auto")
           (windows_host 0 (completed 0 [] [])) []); reflexivity.
Defined.

(** C4.  With real blocking disabled and [dry_run] unset, [block_ip] and
    [unblock_ip] do what they do with [dry_run] set. *)
Theorem real_disabled_is_dry_run
  (ip : str) (ar : bool) (b : str) (h : Host) (log : spawn_log) :
  block_ip ip false false b h log = block_ip ip ar true b h log
  /\ unblock_ip ip false false b h log = unblock_ip ip ar true b h log.
Proof. rewrite !block_ip_run, !unblock_ip_run. split; reflexivity. Qed.

(** C5.  In REAL mode on a host that is not Windows, [block_ip] and
    [unblock_ip] return [ok] false with the unsupported-backend message
    and the command, and spawn nothing. *)
Theorem real_mode_unsupported_platform
  (ip b : str) (h : Host) (log : spawn_log) :
  on_windows h = false ->
  block_ip ip true false b h log
  = (Return {| ok := false; message := unsupported_msg;
               command := Some (block_cmd ip) |}, log)
  /\ unblock_ip ip true false b h log
     = (Return {| ok := false; message := unsupported_msg;
                  command := Some (unblock_cmd ip) |}, log)
  /\ contains (u "not supported") unsupported_msg.
Proof.
  intros Hw. rewrite block_ip_run, unblock_ip_run, Hw. cbn [orb negb].
  repeat split. apply unsupported_msg_says_so.
Qed.

Lemma real_mode_unsupported_platform_witness :
  block_ip ip1 true false (u "auto") linux_host []
  = (Return {| ok := false; message := unsupported_msg;
               command := Some (block_cmd ip1) |}, [])
  /\ unblock_ip ip1 true false (u "auto") linux_host []
     = (Return {| ok := false; message := unsupported_msg;
                  command := Some (unblock_cmd ip1) |}, [])
  /\ contains (u "not supported") unsupported_msg.
Proof.
  apply (real_mode_unsupported_platform ip1 (u "auto") linux_host []).
  reflexivity.
Defined.

(** C6.  Every result [block_ip] or [unblock_ip] returns carries its
    command; a result of [list_ids_rules] lacks one exactly when the
    host is not Windows, and is then the rejection. *)
Theorem command_absent_only_in_list_rejection
  (ip : str) (ar dr : bool) (b : str) (h : Host) (log : spawn_log) :
  (forall r, fst (block_ip ip ar dr b h log) = Return r ->
             command r = Some (block_cmd ip))
  /\ (forall r, fst (unblock_ip ip ar dr b h log) = Return r ->
                command r = Some (unblock_cmd ip))
  /\ (forall r, fst (list_ids_rules h log) = Return r ->
                (command r = None <-> on_windows h = false)
                /\ (command r = None ->
                    r = {| ok := false;
                           message := u "Rule listing supported only on Windows.";
                           command := None |})).
Proof.
  split; [|split]; intros r H.
  - destruct (block_ip ip ar dr b h log) as [o log'] eqn:E.
    cbn [fst] in H. subst o.
    exact (proj1 (command_run_block ip ar dr b h log r log' E)).
  - destruct (unblock_ip ip ar dr b h log) as [o log'] eqn:E.
    cbn [fst] in H. subst o.
    exact (proj1 (command_run_unblock ip ar dr b h log r log' E)).
  - rewrite list_ids_rules_run in H. destruct (on_windows h).
    + destruct (subprocess_run h log (powershell_argv list_cmd)) as [p|];
        cbn [fst] in H; [|discriminate].
      injection H as <-.
      destruct (returncode p =? 0)%Z; cbn [command];
        (split; [split|]; discriminate).
    + cbn [fst] in H. injection H as <-. cbn [command].
      split; [split|]; reflexivity.
Qed.

(** C7.  Whatever string [ip] is, every result [block_ip] returns has in
    its command field the block command with [ip] substituted, and in
    dry-run mode such a result is returned for every [ip]: no input is
    rejected before the command is built. *)
Theorem block_command_exact
  (ip : str) (ar dr : bool) (b : str) (h : Host) (log log' : spawn_log)
  (r : FirewallResult) :
  block_ip ip ar dr b h log = (Return r, log') ->
  command r
  = Some (u "New-NetFirewallRule -DisplayName " ++ dq ++ u "IDS_Block_" ++ ip
          ++ dq ++ u " -Direction Inbound -Action Block -RemoteAddress " ++ ip
          ++ u " -Profile Any")
  /\ exists r0,
       block_ip ip ar true b h log = (Return r0, log)
       /\ ok r0 = true
       /\ command r0 = command r.
Proof.
  intros H.
  destruct (command_run_block ip ar dr b h log r log' H) as [Hc _].
  rewrite <- block_cmd_text. split; [exact Hc|].
  rewrite block_ip_run. cbn [orb]. eexists. split; [reflexivity|].
  cbn [ok command]. now rewrite Hc.
Qed.

Lemma block_command_exact_witness :
  command {| ok := true;
             message := u "(Dry-run) Block command prepared. Enable REAL blocking + run Streamlit/VS Code as Admin to apply.";
             command := Some (block_cmd (u "not-an-ip")) |}
  = Some (u "New-NetFirewallRule -DisplayName " ++ dq ++ u "IDS_Block_"
          ++ u "not-an-ip" ++ dq
          ++ u " -Direction Inbound -Action Block -RemoteAddress "
          ++ u "not-an-ip" ++ u " -Profile Any")
  /\ exists r0,
       block_ip (u "not-an-ip") false true (u "auto") linux_host []
       = (Return r0, [])
       /\ ok r0 = true
       /\ command r0
          = command {| ok := true;
                       message := u "(Dry-run) Block command prepared. Enable REAL blocking + run Streamlit/VS Code as Admin to apply.";
                       command := Some (block_cmd (u "not-an-ip")) |}.
Proof.
  apply (block_command_exact (u "not-an-ip") false false (u "auto")
           linux_host [] []).
  reflexivity.
Defined.




(** C9, as amended.  When the shell exits with a non-zero code,
    [block_ip] and [unblock_ip], each on its own command, return [ok]
    false and a message that ends with the captured stderr stripped of
    the whitespace at its two ends, or with the stripped stdout when
    the stripped stderr is empty. *)
Theorem nonzero_exit_reports_stripped_output
  (ip b : str) (h : Host) (log : spawn_log) :
  on_windows h = true ->
  elevated h = true ->
  let err (p : CompletedProcess) :=
    if eqb (strip (stderr p)) [] then strip (stdout p) else strip (stderr p) in
  (forall p,
     subprocess_run h log (powershell_argv (block_cmd ip)) = Return p ->
     returncode p <> 0%Z ->
     block_ip ip true false b h log
     = (Return {| ok := false;
                  message := cross_mark ++ u " Block failed: " ++ err p;
                  command := Some (block_cmd ip) |},
        log ++ [powershell_argv (block_cmd ip)])
     /\ contains (err p) (cross_mark ++ u " Block failed: " ++ err p))
  /\ (forall p,
        subprocess_run h log (powershell_argv (unblock_cmd ip)) = Return p ->
        returncode p <> 0%Z ->
        unblock_ip ip true false b h log
        = (Return {| ok := false;
                     message := cross_mark ++ u " Unblock failed: " ++ err p;
                     command := Some (unblock_cmd ip) |},
           log ++ [powershell_argv (unblock_cmd ip)])
        /\ contains (err p) (cross_mark ++ u " Unblock failed: " ++ err p)).
Proof.
  intros Hw He err.
  assert (Herr : forall p, or_ (strip (stderr p)) (strip (stdout p)) = err p).
  { intros p. unfold err. now destruct (strip (stderr p)). }
  split; intros p Hp Hrc; apply Z.eqb_neq in Hrc.
  - rewrite block_ip_run, Hw, He, Hp, Hrc, Herr. cbn [orb negb].
    split; [reflexivity|]. rewrite app_assoc. apply contains_suffix.
  - rewrite unblock_ip_run, Hw, He, Hp, Hrc, Herr. cbn [orb negb].
    split; [reflexivity|]. rewrite app_assoc. apply contains_suffix.
Qed.

(** The scenario of the specification with the newline PowerShell ends
    its output with, on a host where only the block command fails: the
    message carries the stripped text. *)
Lemma nonzero_exit_reports_stripped_output_witness :
  block_ip ip1 true false (u "auto")
    {| platform_system := u "Windows";
       IsUserAnAdmin := Return 1%Z;
       subprocess_run := fun _ args =>
         if list_eq_dec (list_eq_dec N.eq_dec) args (powershell_argv (block_cmd ip1))
         then completed 1 [] (u "RuleAlreadyExists" ++ [10%N])
         else Raise FileNotFoundError |}
    []
  = (Return {| ok := false;
               message := cross_mark ++ u " Block failed: " ++ u "RuleAlreadyExists";
               command := Some (block_cmd ip1) |},
     [powershell_argv (block_cmd ip1)]).
Proof.
  destruct (nonzero_exit_reports_stripped_output ip1 (u "auto")
              {| platform_system := u "Windows";
                 IsUserAnAdmin := Return 1%Z;
                 subprocess_run := fun _ args =>
                   if list_eq_dec (list_eq_dec N.eq_dec) args
                        (powershell_argv (block_cmd ip1))
                   then completed 1 [] (u "RuleAlreadyExists" ++ [10%N])
                   else Raise FileNotFoundError |}
              [] eq_refl eq_refl)
    as [Hb _].
  destruct (Hb {| returncode := 1; stdout := [];
                  stderr := u "RuleAlreadyExists" ++ [10%N] |}
               eq_refl ltac:(discriminate))
    as [Hrun _].
  exact Hrun.
Defined.

(** C9, as stated, fails: the shell exits with 1 and a stderr that ends
    with a newline; the result has [ok] false, but its message does not
    contain the captured stderr, only its stripped form. *)
Lemma nonzero_exit_message_lacks_raw_stderr :
  exists (r : FirewallResult) (log' : spawn_log),
    block_ip ip1 true false (u "auto")
      (windows_host 1 (completed 1 [] (u "RuleAlreadyExists" ++ [10%N]))) []
    = (Return r, log')
    /\ ok r = false
    /\ ~ contains (u "RuleAlreadyExists" ++ [10%N]) (message r).
Proof.
  exists {| ok := false;
            message := cross_mark ++ u " Block failed: " ++ u "RuleAlreadyExists";
            command := Some (block_cmd ip1) |},
         [powershell_argv (block_cmd ip1)].
  split; [reflexivity|]. split; [reflexivity|].
  intros Hc. apply infixb_contains in Hc. vm_compute in Hc. discriminate.
Qed.

(** C10.  [block_ip] and [unblock_ip] never read [backend]: two calls
    that differ only there yield the same result and the same log. *)
Theorem backend_is_ignored
  (ip : str) (ar dr : bool) (b1 b2 : str) (h : Host) (log : spawn_log) :
  block_ip ip ar dr b1 h log = block_ip ip ar dr b2 h log
  /\ unblock_ip ip ar dr b1 h log = unblock_ip ip ar dr b2 h log.
Proof. split; reflexivity. Qed.

(** * Further properties of the controller *)

Lemma lstrip_blank (s : str) : forallb isspace s = true -> lstrip s = [].
Proof.
  induction s as [|c s IH]; simpl; [reflexivity|].
  intros H. apply andb_true_iff in H as [Hc Hs]. rewrite Hc. now apply IH.
Qed.

(** [s.strip()] is empty exactly when [s] is whitespace throughout. *)
Lemma strip_nil_iff (s : str) : strip s = [] <-> forallb isspace s = true.
Proof.
  split.
  - intros H. destruct (strip_split s) as [pre [post [Hs [Hpre Hpost]]]].
    rewrite H in Hs. simpl in Hs. rewrite Hs, forallb_app, Hpre, Hpost.
    reflexivity.
  - intros H. unfold strip. rewrite (lstrip_blank s H). reflexivity.
Qed.

Lemma app_inv_same_length (a b x y : str) :
  List.length a = List.length b -> a ++ x = b ++ y -> a = b.
Proof.
  revert b; induction a as [|c a IH]; intros [|d b] Hl H; simpl in *;
    try discriminate; [reflexivity|].
  injection H as -> H. injection Hl as Hl. f_equal. now apply IH.
Qed.

(** X1.  On Windows, a listing whose shell exits with 0 reports [ok]
    true after one invocation of the list command; its message is never
    empty: it is the "(No IDS rules found)" text when stdout is empty or
    whitespace throughout, and the stripped stdout otherwise. *)
Theorem list_rules_success
  (h : Host) (log : spawn_log) (proc : CompletedProcess) :
  on_windows h = true ->
  subprocess_run h log (powershell_argv list_cmd) = Return proc ->
  returncode proc = 0%Z ->
  exists msg,
    list_ids_rules h log
    = (Return {| ok := true; message := msg; command := Some list_cmd |},
       log ++ [powershell_argv list_cmd])
    /\ msg <> []
    /\ (forallb isspace (stdout proc) = true -> msg = u "(No IDS rules found)")
    /\ (forallb isspace (stdout proc) = false -> msg = strip (stdout proc)).
Proof.
  intros Hw Hp Hrc. rewrite list_ids_rules_run, Hw, Hp, Hrc. cbn [Z.eqb].
  eexists. split; [reflexivity|].
  destruct (strip (stdout proc)) as [|c t] eqn:Hs; cbn [or_ message].
  - apply strip_nil_iff in Hs. rewrite Hs.
    split; [|split]; [vm_compute; discriminate | reflexivity | discriminate].
  - split; [|split]; [discriminate | | reflexivity].
    intros Hb. apply strip_nil_iff in Hb. congruence.
Qed.

Lemma list_rules_success_witness :
  exists msg,
    list_ids_rules (windows_host 0 (completed 0 (u "  " ++ nl) [])) []
    = (Return {| ok := true; message := msg; command := Some list_cmd |},
       [] ++ [powershell_argv list_cmd])
    /\ msg <> []
    /\ (forallb isspace (u "  " ++ nl) = true -> msg = u "(No IDS rules found)")
    /\ (forallb isspace (u "  " ++ nl) = false -> msg = strip (u "  " ++ nl)).
Proof.
  apply (list_rules_success
           (windows_host 0 (completed 0 (u "  " ++ nl) [])) []
           {| returncode := 0; stdout := u "  " ++ nl; stderr := [] |});
    reflexivity.
Defined.

(** X2.  On Windows, a listing whose shell exits with a non-zero code
    reports [ok] false with the stripped stderr, or the stripped stdout
    when stderr is blank; when both streams are blank the message is the
    empty string. *)
Theorem list_rules_failure
  (h : Host) (log : spawn_log) (proc : CompletedProcess) :
  on_windows h = true ->
  subprocess_run h log (powershell_argv list_cmd) = Return proc ->
  returncode proc <> 0%Z ->
  exists msg,
    list_ids_rules h log
    = (Return {| ok := false; message := msg; command := Some list_cmd |},
       log ++ [powershell_argv list_cmd])
    /\ msg = (if forallb isspace (stderr proc) then strip (stdout proc)
              else strip (stderr proc))
    /\ (msg = [] <-> forallb isspace (stderr proc) = true
                     /\ forallb isspace (stdout proc) = true).
Proof.
  intros Hw Hp Hrc. apply Z.eqb_neq in Hrc.
  rewrite list_ids_rules_run, Hw, Hp, Hrc.
  eexists. split; [reflexivity|].
  destruct (strip (stderr proc)) as [|c t] eqn:He; cbn [or_].
  - pose proof (proj1 (strip_nil_iff _) He) as Hb. rewrite Hb.
    split; [reflexivity|]. rewrite strip_nil_iff. tauto.
  - destruct (forallb isspace (stderr proc)) eqn:Hb.
    + apply strip_nil_iff in Hb. congruence.
    + rewrite <- He. split; [reflexivity|]. rewrite He.
      split; [discriminate | intros [H _]; discriminate].
Qed.

Lemma list_rules_failure_witness :
  exists msg,
    list_ids_rules (windows_host 0 (completed 1 nl (u " "))) []
    = (Return {| ok := false; message := msg; command := Some list_cmd |},
       [] ++ [powershell_argv list_cmd])
    /\ msg = (if forallb isspace (u " ") then strip nl else strip (u " "))
    /\ (msg = [] <-> forallb isspace (u " ") = true
                     /\ forallb isspace nl = true).
Proof.
  apply (list_rules_failure
           (windows_host 0 (completed 1 nl (u " "))) []
           {| returncode := 1; stdout := nl; stderr := u " " |});
    [reflexivity | reflexivity | discriminate].
Defined.

(** X3.  Listing never looks at the privilege of the process: two hosts
    that differ only in what the probe would answer give the same
    listing. *)
Theorem list_rules_ignores_privilege
  (sys : str) (probe1 probe2 : outcome Z)
  (run : spawn_log -> argv -> outcome CompletedProcess) (log : spawn_log) :
  list_ids_rules
    {| platform_system := sys; IsUserAnAdmin := probe1; subprocess_run := run |}
    log
  = list_ids_rules
      {| platform_system := sys; IsUserAnAdmin := probe2; subprocess_run := run |}
      log.
Proof. rewrite !list_ids_rules_run. reflexivity. Qed.

(** X4.  A call spawns at most one process and keeps the earlier log:
    [block_ip] and [unblock_ip] invoke PowerShell, once and with their
    command as the single argument after [-Command], exactly in REAL
    mode on an elevated Windows host, and [list_ids_rules] exactly on
    Windows; whether the shell then fails makes no difference to the
    log. *)
Theorem spawn_log_growth
  (ip : str) (ar dr : bool) (b : str) (h : Host) (log : spawn_log) :
  snd (block_ip ip ar dr b h log)
  = (if ar && negb dr && on_windows h && elevated h
     then log ++ [powershell_argv (block_cmd ip)] else log)
  /\ snd (unblock_ip ip ar dr b h log)
     = (if ar && negb dr && on_windows h && elevated h
        then log ++ [powershell_argv (unblock_cmd ip)] else log)
  /\ snd (list_ids_rules h log)
     = (if on_windows h then log ++ [powershell_argv list_cmd] else log).
Proof.
  rewrite block_ip_run, unblock_ip_run, list_ids_rules_run.
  repeat split.
  - destruct ar, dr, (on_windows h), (elevated h); try reflexivity.
    now destruct (subprocess_run h log (powershell_argv (block_cmd ip))).
  - destruct ar, dr, (on_windows h), (elevated h); try reflexivity.
    now destruct (subprocess_run h log (powershell_argv (unblock_cmd ip))).
  - destruct (on_windows h); try reflexivity.
    now destruct (subprocess_run h log (powershell_argv list_cmd)).
Qed.

(** X5.  On Windows, elevated and in REAL mode, a shell that exits with
    0 makes [block_ip] report [ok] true with the "Blocked" message for
    that [ip] and the block command, after one invocation and whatever
    the shell printed. *)
Theorem block_exit_zero_is_success
  (ip b : str) (h : Host) (log : spawn_log) (proc : CompletedProcess) :
  on_windows h = true ->
  elevated h = true ->
  subprocess_run h log (powershell_argv (block_cmd ip)) = Return proc ->
  returncode proc = 0%Z ->
  block_ip ip true false b h log
  = (Return {| ok := true;
               message := check_mark ++ u " Blocked " ++ ip
                          ++ u " (Windows Firewall rule added).";
               command := Some (block_cmd ip) |},
     log ++ [powershell_argv (block_cmd ip)]).
Proof.
  intros Hw He Hp Hrc. rewrite block_ip_run, Hw, He, Hp, Hrc. reflexivity.
Qed.

Lemma block_exit_zero_is_success_witness :
  block_ip ip1 true false (u "auto")
    (windows_host 1 (completed 0 (u "Ok.") (u "warning"))) []
  = (Return {| ok := true;
               message := check_mark ++ u " Blocked " ++ ip1
                          ++ u " (Windows Firewall rule added).";
               command := Some (block_cmd ip1) |},
     [] ++ [powershell_argv (block_cmd ip1)]).
Proof.
  apply (block_exit_zero_is_success ip1 (u "auto")
           (windows_host 1 (completed 0 (u "Ok.") (u "warning"))) []
           {| returncode := 0; stdout := u "Ok."; stderr := u "warning" |});
    reflexivity.
Defined.

(** X6.  A result of [block_ip] has [ok] true in two cases only: the
    call was a dry run, or the host is Windows, the process is elevated
    and the shell exited with 0 on the block command.  The same holds
    of [unblock_ip] and the unblock command, each call taken on its
    own. *)
Theorem ok_iff_dry_run_or_exit_zero
  (ip : str) (ar dr : bool) (b : str) (h : Host) (log : spawn_log) :
  (forall rb,
     fst (block_ip ip ar dr b h log) = Return rb ->
     (ok rb = true
      <-> dr || negb ar = true
          \/ (on_windows h = true /\ elevated h = true
              /\ exists proc,
                   subprocess_run h log (powershell_argv (block_cmd ip)) = Return proc
                   /\ returncode proc = 0%Z)))
  /\ (forall ru,
        fst (unblock_ip ip ar dr b h log) = Return ru ->
        (ok ru = true
         <-> dr || negb ar = true
             \/ (on_windows h = true /\ elevated h = true
                 /\ exists proc,
                      subprocess_run h log (powershell_argv (unblock_cmd ip)) = Return proc
                      /\ returncode proc = 0%Z))).
Proof.
  rewrite block_ip_run, unblock_ip_run.
  split; intros r Hr.
  - destruct (dr || negb ar).
    { cbn [fst] in Hr. injection Hr as <-.
      split; intros _; [now left | reflexivity]. }
    destruct (on_windows h).
    2:{ cbn [fst] in Hr. injection Hr as <-.
        split; [discriminate | intros [H | (H & _)]; discriminate]. }
    destruct (elevated h).
    2:{ cbn [fst] in Hr. injection Hr as <-.
        split; [discriminate | intros [H | (_ & H & _)]; discriminate]. }
    destruct (subprocess_run h log (powershell_argv (block_cmd ip))) as [p|e];
      cbn [fst] in Hr; [|discriminate].
    injection Hr as <-. destruct (returncode p =? 0)%Z eqn:Hrc; cbn [ok].
    + apply Z.eqb_eq in Hrc. split; [|reflexivity].
      intros _. right. repeat split. now exists p.
    + apply Z.eqb_neq in Hrc. split; [discriminate|].
      intros [H | (_ & _ & q & Hq & Hz)]; [discriminate|].
      injection Hq as <-. contradiction.
  - destruct (dr || negb ar).
    { cbn [fst] in Hr. injection Hr as <-.
      split; intros _; [now left | reflexivity]. }
    destruct (on_windows h).
    2:{ cbn [fst] in Hr. injection Hr as <-.
        split; [discriminate | intros [H | (H & _)]; discriminate]. }
    destruct (elevated h).
    2:{ cbn [fst] in Hr. injection Hr as <-.
        split; [discriminate | intros [H | (_ & H & _)]; discriminate]. }
    destruct (subprocess_run h log (powershell_argv (unblock_cmd ip))) as [p|e];
      cbn [fst] in Hr; [|discriminate].
    injection Hr as <-. destruct (returncode p =? 0)%Z eqn:Hrc; cbn [ok].
    + apply Z.eqb_eq in Hrc. split; [|reflexivity].
      intros _. right. repeat split. now exists p.
    + apply Z.eqb_neq in Hrc. split; [discriminate|].
      intros [H | (_ & _ & q & Hq & Hz)]; [discriminate|].
      injection Hq as <-. contradiction.
Qed.

(** X7.  A dry run does not depend on the host: whenever [dry_run] is
    set or real blocking is disabled, [block_ip] and [unblock_ip] give
    the same result on any two hosts and leave the log as it was. *)
Theorem dry_run_is_host_independent
  (ip : str) (ar dr : bool) (b : str) (h1 h2 : Host) (log : spawn_log) :
  dr || negb ar = true ->
  block_ip ip ar dr b h1 log = block_ip ip ar dr b h2 log
  /\ unblock_ip ip ar dr b h1 log = unblock_ip ip ar dr b h2 log
  /\ snd (block_ip ip ar dr b h1 log) = log
  /\ snd (unblock_ip ip ar dr b h1 log) = log.
Proof.
  intros Hd. rewrite !block_ip_run, !unblock_ip_run, Hd. repeat split.
Qed.

Lemma dry_run_is_host_independent_witness :
  block_ip ip1 false false (u "auto") (windows_host 1 (completed 0 [] [])) []
  = block_ip ip1 false false (u "auto") linux_host []
  /\ unblock_ip ip1 false false (u "auto") (windows_host 1 (completed 0 [] [])) []
     = unblock_ip ip1 false false (u "auto") linux_host []
  /\ snd (block_ip ip1 false false (u "auto")
            (windows_host 1 (completed 0 [] [])) []) = []
  /\ snd (unblock_ip ip1 false false (u "auto")
            (windows_host 1 (completed 0 [] [])) []) = [].
Proof.
  apply (dry_run_is_host_independent ip1 false false (u "auto")
           (windows_host 1 (completed 0 [] [])) linux_host []).
  reflexivity.
Defined.

(** X8.  The commands tell the addresses apart: two strings give the
    same block command, or the same unblock command, only when they are
    the same string. *)
Theorem commands_are_injective (a b : str) :
  (block_cmd a = block_cmd b <-> a = b)
  /\ (unblock_cmd a = unblock_cmd b <-> a = b).
Proof.
  split; (split; [|now intros ->]).
  - rewrite !block_cmd_text. intros H.
    assert (Hl : List.length a = List.length b).
    { apply (f_equal (@List.length codepoint)) in H.
      rewrite !length_app in H. lia. }
    apply app_inv_head in H. apply app_inv_head in H. apply app_inv_head in H.
    exact (app_inv_same_length _ _ _ _ Hl H).
  - rewrite !unblock_cmd_text. intros H.
    assert (Hl : List.length a = List.length b).
    { apply (f_equal (@List.length codepoint)) in H.
      rewrite !length_app in H. lia. }
    apply app_inv_head in H. apply app_inv_head in H. apply app_inv_head in H.
    exact (app_inv_same_length _ _ _ _ Hl H).
Qed.

(** * Properties of the login gate *)

Lemma eqb_refl (a : str) : eqb a a = true.
Proof. now apply eqb_eq. Qed.

Lemma eqb_neq (a b : str) : eqb a b = false <-> a <> b.
Proof.
  split.
  - intros H E. apply eqb_eq in E. congruence.
  - intros H. destruct (eqb a b) eqn:E; [|reflexivity].
    apply eqb_eq in E. contradiction.
Qed.

(** Reading back what was written, and the other keys. *)
Lemma dict_get_set_same (V : Type) (k : str) (v : V) (d : dict V) :
  dict_get k (dict_set k v d) = Some v.
Proof.
  induction d as [|[k' v'] d IH]; simpl.
  - now rewrite eqb_refl.
  - destruct (eqb k k') eqn:E; simpl.
    + now rewrite eqb_refl.
    + now rewrite E.
Qed.

Lemma dict_get_set_other (V : Type) (k k0 : str) (v : V) (d : dict V) :
  k0 <> k -> dict_get k0 (dict_set k v d) = dict_get k0 d.
Proof.
  intros Hn. induction d as [|[k' v'] d IH]; simpl.
  - apply eqb_neq in Hn. now rewrite Hn.
  - destruct (eqb k k') eqn:E; simpl.
    + apply eqb_eq in E. subst k'. apply eqb_neq in Hn. now rewrite Hn.
    + now rewrite IH.
Qed.

Lemma users_get (usr : str) :
  dict_get usr Auth.USERS
  = if eqb usr (u "admin") then
      Some [(u "role", u "admin"); (u "password", u "admin123")]
    else if eqb usr (u "viewer") then
      Some [(u "role", u "viewer"); (u "password", u "viewer123")]
    else None.
Proof. reflexivity. Qed.

(** Evaluates the look-ups in the two entries of [USERS]. *)
Ltac table_lookups :=
  change (dict_get (u "password") [(u "role", u "admin"); (u "password", u "admin123")])
    with (Some (u "admin123")) in *;
  change (dict_get (u "role") [(u "role", u "admin"); (u "password", u "admin123")])
    with (Some (u "admin")) in *;
  change (dict_get (u "password") [(u "role", u "viewer"); (u "password", u "viewer123")])
    with (Some (u "viewer123")) in *;
  change (dict_get (u "role") [(u "role", u "viewer"); (u "password", u "viewer123")])
    with (Some (u "viewer")) in *.

(** The credential table accepts two pairs, and gives each its role. *)
Lemma login_role_spec (usr p role : str) :
  Auth.login_role usr p = Some role
  <-> (usr = u "admin" /\ p = u "admin123" /\ role = u "admin")
      \/ (usr = u "viewer" /\ p = u "viewer123" /\ role = u "viewer").
Proof.
  unfold Auth.login_role. rewrite users_get.
  destruct (eqb usr (u "admin")) eqn:Ea.
  - apply eqb_eq in Ea. subst usr.
    change (dict_get (u "password") [(u "role", u "admin"); (u "password", u "admin123")])
      with (Some (u "admin123")).
    change (dict_get (u "role") [(u "role", u "admin"); (u "password", u "admin123")])
      with (Some (u "admin")).
    cbv beta iota.
    destruct (eqb (u "admin123") p) eqn:Ep.
    + apply eqb_eq in Ep. subst p. split.
      * intros H. injection H as <-. now left.
      * intros [(_ & _ & ->) | (H & _)]; [reflexivity | vm_compute in H; discriminate].
    + apply eqb_neq in Ep. split; [discriminate|].
      intros [(_ & H & _) | (H & _)]; [congruence | vm_compute in H; discriminate].
  - apply eqb_neq in Ea. destruct (eqb usr (u "viewer")) eqn:Ev.
    + apply eqb_eq in Ev. subst usr.
      change (dict_get (u "password") [(u "role", u "viewer"); (u "password", u "viewer123")])
        with (Some (u "viewer123")).
      change (dict_get (u "role") [(u "role", u "viewer"); (u "password", u "viewer123")])
        with (Some (u "viewer")).
      cbv beta iota.
      destruct (eqb (u "viewer123") p) eqn:Ep.
      * apply eqb_eq in Ep. subst p. split.
        -- intros H. injection H as <-. now right.
        -- intros [(H & _) | (_ & _ & ->)]; [contradiction | reflexivity].
      * apply eqb_neq in Ep. split; [discriminate|].
        intros [(H & _) | (_ & H & _)]; [contradiction | congruence].
    + apply eqb_neq in Ev. split; [discriminate|].
      intros [(H & _) | (H & _)]; contradiction.
Qed.

(** The run of [require_login], down to the widgets and the stored
    value. *)
Lemma require_login_run (ui : Auth.Ui) (app : Auth.App) :
  Auth.require_login ui app
  = let usr := Auth.text_input ui (u "Username") (u "login_user") in
    let p := Auth.text_input ui (u "Password") (u "login_pass") in
    let state :=
      if dict_has Auth.AUTH_KEY (Auth.session_state app)
      then Auth.session_state app
      else dict_set Auth.AUTH_KEY Auth.VNone (Auth.session_state app) in
    let typed :=
      dict_set (u "login_pass") p
        (dict_set (u "login_user") usr (Auth.widget_state app)) in
    let form := Auth.sidebar app ++ [Auth.Subheader (Auth.lock_sign ++ u " Login")] in
    if Auth.truthy (Auth.stored_auth app) then (Auth.Done (Auth.stored_auth app), app)
    else if Auth.button ui (u "Login") then
      match Auth.login_role usr p with
      | Some role =>
          (Auth.RerunException,
           {| Auth.session_state :=
                dict_set Auth.AUTH_KEY (Auth.auth_record usr role) state;
              Auth.widget_state := typed;
              Auth.sidebar := form |})
      | None =>
          (Auth.StopException,
           {| Auth.session_state := state;
              Auth.widget_state := typed;
              Auth.sidebar := form ++ [Auth.Error (u "Invalid credentials")] |})
      end
    else
      (Auth.StopException,
       {| Auth.session_state := state;
          Auth.widget_state := typed;
          Auth.sidebar := form |}).
Proof.
  unfold Auth.require_login, Auth.stored_auth, Auth.login_role.
  unfold Auth.bind, Auth.state_contains, Auth.state_setitem,
    Auth.state_getitem, Auth.ret, Auth.show, Auth.sidebar_text_input,
    Auth.sidebar_button, Auth.subscript, Auth.rerun, Auth.stop, dict_has.
  cbn [Auth.session_state Auth.widget_state Auth.sidebar].
  destruct (dict_get Auth.AUTH_KEY (Auth.session_state app)) as [v|] eqn:Eg;
    cbn [negb Auth.session_state Auth.widget_state Auth.sidebar];
    [rewrite Eg; destruct (Auth.truthy v); [reflexivity|]
    |rewrite dict_get_set_same; cbn [Auth.truthy]];
    cbv beta iota;
    (destruct (Auth.button ui (u "Login")); [|reflexivity]);
    cbv beta iota; rewrite !users_get;
    (destruct (eqb (Auth.text_input ui (u "Username") (u "login_user")) (u "admin"));
     [|destruct (eqb (Auth.text_input ui (u "Username") (u "login_user")) (u "viewer"));
       [|reflexivity]]);
    table_lookups; cbv beta iota;
    match goal with |- context [eqb ?pw ?p] => destruct (eqb pw p) end;
    reflexivity.
Qed.

Lemma logout_button_run (ui : Auth.Ui) (app : Auth.App) :
  Auth.logout_button ui app
  = let auth := Auth.stored_auth app in
    let shown :=
      Auth.sidebar app
      ++ [Auth.Caption (u "Logged in as: **" ++ Auth.get_text auth (u "username")
                        ++ u "** (" ++ Auth.get_text auth (u "role") ++ u ")")] in
    if Auth.truthy auth then
      if Auth.button ui (u "Logout") then
        (Auth.RerunException,
         {| Auth.session_state :=
              dict_set Auth.AUTH_KEY Auth.VNone (Auth.session_state app);
            Auth.widget_state := Auth.widget_state app;
            Auth.sidebar := shown |})
      else
        (Auth.Done tt,
         {| Auth.session_state := Auth.session_state app;
            Auth.widget_state := Auth.widget_state app;
            Auth.sidebar := shown |})
    else (Auth.Done tt, app).
Proof.
  unfold Auth.logout_button, Auth.stored_auth.
  unfold Auth.bind, Auth.state_get, Auth.state_setitem, Auth.ret, Auth.show,
    Auth.sidebar_button, Auth.rerun.
  destruct (dict_get Auth.AUTH_KEY (Auth.session_state app)) as [v|];
    [destruct (Auth.truthy v); [|reflexivity] | reflexivity].
  cbv beta iota. cbn [Auth.session_state Auth.widget_state Auth.sidebar].
  now destruct (Auth.button ui (u "Logout")).
Qed.

Lemma stored_auth_set (v : Auth.value) (st : dict Auth.value)
  (ws : dict str) (sb : list Auth.event) :
  Auth.stored_auth
    {| Auth.session_state := dict_set Auth.AUTH_KEY v st;
       Auth.widget_state := ws;
       Auth.sidebar := sb |}
  = v.
Proof. unfold Auth.stored_auth. cbn [Auth.session_state]. now rewrite dict_get_set_same. Qed.

(** Initialising the key with [None] leaves a session without a login
    as it was, as far as the stored value goes. *)
Lemma stored_auth_init (app : Auth.App) (ws : dict str) (sb : list Auth.event) :
  Auth.stored_auth
    {| Auth.session_state :=
         if dict_has Auth.AUTH_KEY (Auth.session_state app)
         then Auth.session_state app
         else dict_set Auth.AUTH_KEY Auth.VNone (Auth.session_state app);
       Auth.widget_state := ws;
       Auth.sidebar := sb |}
  = Auth.stored_auth app.
Proof.
  unfold Auth.stored_auth, dict_has. cbn [Auth.session_state].
  destruct (dict_get Auth.AUTH_KEY (Auth.session_state app)) as [v|] eqn:E.
  - now rewrite E.
  - now rewrite dict_get_set_same.
Qed.

Lemma is_admin_stored (app : Auth.App) :
  Auth.is_admin app
  = match Auth.stored_auth app with
    | Auth.VDict d =>
        match dict_get (u "role") d with
        | Some role => eqb role (u "admin")
        | None => false
        end
    | Auth.VNone => false
    end.
Proof.
  unfold Auth.is_admin. fold (Auth.stored_auth app).
  destruct (Auth.stored_auth app) as [|[|kv d]]; reflexivity.
Qed.

Lemma auth_record_truthy (usr role : str) :
  Auth.truthy (Auth.auth_record usr role) = true.
Proof. reflexivity. Qed.

(** A return of [require_login] hands back what is stored, and that is
    a non-empty record. *)
Lemma require_login_returns_stored_auth_aux
  (ui : Auth.Ui) (app app' : Auth.App) (a : Auth.value) :
  Auth.require_login ui app = (Auth.Done a, app') ->
  Auth.truthy a = true
  /\ dict_get Auth.AUTH_KEY (Auth.session_state app) = Some a.
Proof.
  rewrite require_login_run. cbv zeta.
  destruct (Auth.truthy (Auth.stored_auth app)) eqn:Ht.
  - intros H. injection H as <- <-. unfold Auth.stored_auth in *.
    destruct (dict_get Auth.AUTH_KEY (Auth.session_state app)); [auto|discriminate].
  - destruct (Auth.button ui (u "Login")); [|discriminate].
    destruct (Auth.login_role _ _); discriminate.
Qed.

(** X9.  [require_login] returns only to a session that is already
    logged in: the value it returns is the non-empty record stored
    under the key, and neither the session state nor the sidebar is
    touched. *)
Theorem require_login_returns_stored_auth
  (ui : Auth.Ui) (app app' : Auth.App) (a : Auth.value) :
  Auth.require_login ui app = (Auth.Done a, app') ->
  Auth.truthy a = true
  /\ dict_get Auth.AUTH_KEY (Auth.session_state app) = Some a
  /\ app' = app.
Proof.
  rewrite require_login_run. cbv zeta.
  destruct (Auth.truthy (Auth.stored_auth app)) eqn:Ht.
  - intros H. injection H as <- <-. unfold Auth.stored_auth in *.
    destruct (dict_get Auth.AUTH_KEY (Auth.session_state app)); [auto|discriminate].
  - destruct (Auth.button ui (u "Login")); [|discriminate].
    destruct (Auth.login_role _ _); discriminate.
Qed.

Lemma require_login_returns_stored_auth_witness :
  Auth.truthy (Auth.auth_record (u "viewer") (u "viewer")) = true
  /\ dict_get Auth.AUTH_KEY
       [(Auth.AUTH_KEY, Auth.auth_record (u "viewer") (u "viewer"))]
     = Some (Auth.auth_record (u "viewer") (u "viewer"))
  /\ {| Auth.session_state :=
          [(Auth.AUTH_KEY, Auth.auth_record (u "viewer") (u "viewer"))];
        Auth.widget_state := []; Auth.sidebar := [] |}
     = {| Auth.session_state :=
            [(Auth.AUTH_KEY, Auth.auth_record (u "viewer") (u "viewer"))];
          Auth.widget_state := []; Auth.sidebar := [] |}.
Proof.
  apply (require_login_returns_stored_auth
           {| Auth.text_input := fun _ _ => []; Auth.button := fun _ => false |}
           {| Auth.session_state :=
                [(Auth.AUTH_KEY, Auth.auth_record (u "viewer") (u "viewer"))];
              Auth.widget_state := []; Auth.sidebar := [] |}).
  reflexivity.
Defined.

(** X10.  A login with a pair of the table, on a session that is not
    logged in, stores the user's name and role under the key and asks
    for a rerun of the script; in the next run, whatever the widgets
    say, [require_login] returns that record, and [is_admin] holds
    exactly for the role ["admin"]. *)
Theorem login_then_gate_opens
  (ui : Auth.Ui) (app : Auth.App) (role : str) :
  Auth.truthy (Auth.stored_auth app) = false ->
  Auth.button ui (u "Login") = true ->
  Auth.login_role (Auth.text_input ui (u "Username") (u "login_user"))
                  (Auth.text_input ui (u "Password") (u "login_pass"))
  = Some role ->
  exists app',
    Auth.require_login ui app = (Auth.RerunException, app')
    /\ Auth.stored_auth app'
       = Auth.auth_record (Auth.text_input ui (u "Username") (u "login_user")) role
    /\ (forall ui',
          Auth.require_login ui' app'
          = (Auth.Done
               (Auth.auth_record (Auth.text_input ui (u "Username") (u "login_user")) role),
             app'))
    /\ Auth.is_admin app' = eqb role (u "admin").
Proof.
  intros Ht Hb Hr. rewrite require_login_run. cbv zeta. rewrite Ht, Hb, Hr.
  eexists. split; [reflexivity|].
  split; [apply stored_auth_set|]. split.
  - intros ui'. rewrite require_login_run. cbv zeta.
    now rewrite stored_auth_set, auth_record_truthy.
  - now rewrite is_admin_stored, stored_auth_set.
Qed.

Lemma login_then_gate_opens_witness :
  exists app',
    Auth.require_login
      {| Auth.text_input := fun label _ =>
           if eqb label (u "Username") then u "viewer" else u "viewer123";
         Auth.button := fun _ => true |}
      {| Auth.session_state := []; Auth.widget_state := []; Auth.sidebar := [] |}
    = (Auth.RerunException, app')
    /\ Auth.stored_auth app' = Auth.auth_record (u "viewer") (u "viewer")
    /\ (forall ui',
          Auth.require_login ui' app'
          = (Auth.Done (Auth.auth_record (u "viewer") (u "viewer")), app'))
    /\ Auth.is_admin app' = eqb (u "viewer") (u "admin").
Proof.
  apply (login_then_gate_opens
           {| Auth.text_input := fun label _ =>
                if eqb label (u "Username") then u "viewer" else u "viewer123";
              Auth.button := fun _ => true |}
           {| Auth.session_state := []; Auth.widget_state := []; Auth.sidebar := [] |}
           (u "viewer"));
    reflexivity.
Defined.

(** X11.  From a session that is not logged in, one call of
    [require_login] makes [is_admin] true in one case only: the Login
    button was pressed with the user name ["admin"] and the password
    ["admin123"], both compared exactly. *)
Theorem login_grants_admin_iff (ui : Auth.Ui) (app : Auth.App) :
  Auth.truthy (Auth.stored_auth app) = false ->
  (Auth.is_admin (snd (Auth.require_login ui app)) = true
   <-> Auth.button ui (u "Login") = true
       /\ Auth.text_input ui (u "Username") (u "login_user") = u "admin"
       /\ Auth.text_input ui (u "Password") (u "login_pass") = u "admin123").
Proof.
  intros Ht.
  assert (Hno : forall ws sb,
             Auth.is_admin
               {| Auth.session_state :=
                    if dict_has Auth.AUTH_KEY (Auth.session_state app)
                    then Auth.session_state app
                    else dict_set Auth.AUTH_KEY Auth.VNone (Auth.session_state app);
                  Auth.widget_state := ws;
                  Auth.sidebar := sb |} = false).
  { intros ws sb. rewrite is_admin_stored, stored_auth_init.
    now destruct (Auth.stored_auth app) as [|[|kv d]]. }
  rewrite require_login_run. cbv zeta. rewrite Ht.
  destruct (Auth.button ui (u "Login")).
  2:{ cbn [snd]. rewrite Hno. split; [discriminate | intros [H _]; discriminate]. }
  destruct (Auth.login_role _ _) as [role|] eqn:Hr; cbn [snd].
  - rewrite is_admin_stored, stored_auth_set. cbn [Auth.auth_record].
    change (dict_get (u "role")
              [(u "username", Auth.text_input ui (u "Username") (u "login_user"));
               (u "role", role)])
      with (Some role).
    apply login_role_spec in Hr.
    destruct Hr as [(Hu & Hp & ->) | (Hu & Hp & ->)]; rewrite Hu, Hp.
    + split; [now intros _ | reflexivity].
    + split; [discriminate|]. intros (_ & H & _). vm_compute in H. discriminate.
  - rewrite Hno. split; [discriminate|].
    intros (_ & Hu & Hp).
    assert (H : Auth.login_role
                  (Auth.text_input ui (u "Username") (u "login_user"))
                  (Auth.text_input ui (u "Password") (u "login_pass"))
                = Some (u "admin")).
    { apply login_role_spec. now left. }
    congruence.
Qed.

Lemma login_grants_admin_iff_witness :
  Auth.is_admin
    (snd (Auth.require_login
            {| Auth.text_input := fun label _ =>
                 if eqb label (u "Username") then u "admin" else u "Admin123";
               Auth.button := fun _ => true |}
            {| Auth.session_state := [(Auth.AUTH_KEY, Auth.VNone)];
               Auth.widget_state := []; Auth.sidebar := [] |}))
  = true
  <-> true = true
      /\ u "admin" = u "admin"
      /\ u "Admin123" = u "admin123".
Proof.
  apply (login_grants_admin_iff
           {| Auth.text_input := fun label _ =>
                if eqb label (u "Username") then u "admin" else u "Admin123";
              Auth.button := fun _ => true |}
           {| Auth.session_state := [(Auth.AUTH_KEY, Auth.VNone)];
              Auth.widget_state := []; Auth.sidebar := [] |}).
  reflexivity.
Defined.

(** X12.  On a session that is not logged in, a run without a press of
    Login, or with a pair that is not in the table, ends in [st.stop()]
    with the session still not logged in and [is_admin] false; the
    "Invalid credentials" error is shown exactly when the button was
    pressed. *)
Theorem refused_login_stays_locked (ui : Auth.Ui) (app : Auth.App) :
  Auth.truthy (Auth.stored_auth app) = false ->
  Auth.button ui (u "Login") = false
  \/ Auth.login_role (Auth.text_input ui (u "Username") (u "login_user"))
                     (Auth.text_input ui (u "Password") (u "login_pass"))
     = None ->
  exists app',
    Auth.require_login ui app = (Auth.StopException, app')
    /\ Auth.truthy (Auth.stored_auth app') = false
    /\ Auth.is_admin app' = false
    /\ Auth.sidebar app'
       = Auth.sidebar app
         ++ [Auth.Subheader (Auth.lock_sign ++ u " Login")]
         ++ (if Auth.button ui (u "Login")
             then [Auth.Error (u "Invalid credentials")] else []).
Proof.
  intros Ht H. rewrite require_login_run. cbv zeta. rewrite Ht.
  assert (Hadm : forall ws sb,
             Auth.is_admin
               {| Auth.session_state :=
                    if dict_has Auth.AUTH_KEY (Auth.session_state app)
                    then Auth.session_state app
                    else dict_set Auth.AUTH_KEY Auth.VNone (Auth.session_state app);
                  Auth.widget_state := ws;
                  Auth.sidebar := sb |} = false).
  { intros ws sb. rewrite is_admin_stored, stored_auth_init.
    now destruct (Auth.stored_auth app) as [|[|kv d]]. }
  destruct (Auth.button ui (u "Login")).
  - destruct H as [H|H]; [discriminate|]. rewrite H.
    eexists. split; [reflexivity|].
    rewrite stored_auth_init, Hadm. cbn [Auth.sidebar].
    now rewrite <- app_assoc.
  - eexists. split; [reflexivity|].
    rewrite stored_auth_init, Hadm. cbn [Auth.sidebar].
    now rewrite app_nil_r.
Qed.

(** The password is compared as typed: ["Admin123"] is refused. *)
Lemma refused_login_stays_locked_witness :
  exists app',
    Auth.require_login
      {| Auth.text_input := fun label _ =>
           if eqb label (u "Username") then u "admin" else u "Admin123";
         Auth.button := fun _ => true |}
      {| Auth.session_state := []; Auth.widget_state := []; Auth.sidebar := [] |}
    = (Auth.StopException, app')
    /\ Auth.truthy (Auth.stored_auth app') = false
    /\ Auth.is_admin app' = false
    /\ Auth.sidebar app'
       = [] ++ [Auth.Subheader (Auth.lock_sign ++ u " Login")]
         ++ (if true then [Auth.Error (u "Invalid credentials")] else []).
Proof.
  apply (refused_login_stays_locked
           {| Auth.text_input := fun label _ =>
                if eqb label (u "Username") then u "admin" else u "Admin123";
              Auth.button := fun _ => true |}
           {| Auth.session_state := []; Auth.widget_state := []; Auth.sidebar := [] |});
    [reflexivity | right; reflexivity].
Defined.

(** X13.  A press of Logout on a logged-in session puts [None] under
    the key and asks for a rerun; from then on [is_admin] is false and
    [require_login] does not return, whatever the widgets say. *)
Theorem logout_locks_the_session (ui : Auth.Ui) (app : Auth.App) :
  Auth.truthy (Auth.stored_auth app) = true ->
  Auth.button ui (u "Logout") = true ->
  exists app',
    Auth.logout_button ui app = (Auth.RerunException, app')
    /\ dict_get Auth.AUTH_KEY (Auth.session_state app') = Some Auth.VNone
    /\ Auth.is_admin app' = false
    /\ forall ui' a app'',
         Auth.require_login ui' app' <> (Auth.Done a, app'').
Proof.
  intros Ht Hb. rewrite logout_button_run. cbv zeta. rewrite Ht, Hb.
  eexists. split; [reflexivity|]. cbn [Auth.session_state].
  split; [apply dict_get_set_same|]. split.
  - now rewrite is_admin_stored, stored_auth_set.
  - intros ui' a app'' H.
    apply require_login_returns_stored_auth_aux in H.
    destruct H as [Ha Hs]. cbn [Auth.session_state] in Hs.
    rewrite dict_get_set_same in Hs. injection Hs as <-. discriminate.
Qed.

Lemma logout_locks_the_session_witness :
  exists app',
    Auth.logout_button
      {| Auth.text_input := fun _ _ => []; Auth.button := fun _ => true |}
      {| Auth.session_state :=
           [(Auth.AUTH_KEY, Auth.auth_record (u "admin") (u "admin"))];
         Auth.widget_state := []; Auth.sidebar := [] |}
    = (Auth.RerunException, app')
    /\ dict_get Auth.AUTH_KEY (Auth.session_state app') = Some Auth.VNone
    /\ Auth.is_admin app' = false
    /\ forall ui' a app'',
         Auth.require_login ui' app' <> (Auth.Done a, app'').
Proof.
  apply (logout_locks_the_session
           {| Auth.text_input := fun _ _ => []; Auth.button := fun _ => true |}
           {| Auth.session_state :=
                [(Auth.AUTH_KEY, Auth.auth_record (u "admin") (u "admin"))];
              Auth.widget_state := []; Auth.sidebar := [] |});
    reflexivity.
Defined.

(** A run that shows the login form registers the two typed texts. *)
Lemma require_login_registers_inputs (ui : Auth.Ui) (app : Auth.App) :
  Auth.truthy (Auth.stored_auth app) = false ->
  Auth.widget_state (snd (Auth.require_login ui app))
  = dict_set (u "login_pass") (Auth.text_input ui (u "Password") (u "login_pass"))
      (dict_set (u "login_user") (Auth.text_input ui (u "Username") (u "login_user"))
         (Auth.widget_state app)).
Proof.
  intros Ht. rewrite require_login_run. cbv zeta. rewrite Ht.
  destruct (Auth.button ui (u "Login")); [|reflexivity].
  now destruct (Auth.login_role _ _).
Qed.

(** X14.  What the two functions write in [st.session_state] is
    confined.  Of the entries the script assigns, only the one under
    the module's key can change.  Of the entries of keyed widgets,
    [logout_button] changes none, and [require_login] changes none when
    it returns; when it shows the login form, the two text inputs
    register the typed user name under ["login_user"] and the typed
    password under ["login_pass"], and every other entry stays. *)
Theorem session_writes_are_confined (ui : Auth.Ui) (app : Auth.App) (k : str) :
  k <> Auth.AUTH_KEY ->
  dict_get k (Auth.session_state (snd (Auth.require_login ui app)))
  = dict_get k (Auth.session_state app)
  /\ dict_get k (Auth.session_state (snd (Auth.logout_button ui app)))
     = dict_get k (Auth.session_state app)
  /\ Auth.widget_state (snd (Auth.logout_button ui app)) = Auth.widget_state app
  /\ (if Auth.truthy (Auth.stored_auth app) then
        Auth.widget_state (snd (Auth.require_login ui app)) = Auth.widget_state app
      else
        dict_get (u "login_user")
          (Auth.widget_state (snd (Auth.require_login ui app)))
        = Some (Auth.text_input ui (u "Username") (u "login_user"))
        /\ dict_get (u "login_pass")
             (Auth.widget_state (snd (Auth.require_login ui app)))
           = Some (Auth.text_input ui (u "Password") (u "login_pass"))
        /\ forall k',
             k' <> u "login_user" -> k' <> u "login_pass" ->
             dict_get k' (Auth.widget_state (snd (Auth.require_login ui app)))
             = dict_get k' (Auth.widget_state app)).
Proof.
  intros Hk.
  assert (Hinit : dict_get k
                    (if dict_has Auth.AUTH_KEY (Auth.session_state app)
                     then Auth.session_state app
                     else dict_set Auth.AUTH_KEY Auth.VNone (Auth.session_state app))
                  = dict_get k (Auth.session_state app)).
  { destruct (dict_has _ _); [reflexivity | now apply dict_get_set_other]. }
  assert (Hdiff : u "login_user" <> u "login_pass")
    by (intros H; vm_compute in H; discriminate).
  split; [|split; [|split]].
  - rewrite require_login_run. cbv zeta.
    destruct (Auth.truthy (Auth.stored_auth app)); [reflexivity|].
    destruct (Auth.button ui (u "Login")); [|exact Hinit].
    destruct (Auth.login_role _ _); cbn [snd Auth.session_state];
      [|exact Hinit].
    now rewrite dict_get_set_other.
  - rewrite logout_button_run. cbv zeta.
    destruct (Auth.truthy (Auth.stored_auth app)); [|reflexivity].
    destruct (Auth.button ui (u "Logout")); cbn [snd Auth.session_state];
      [|reflexivity].
    now apply dict_get_set_other.
  - rewrite logout_button_run. cbv zeta.
    destruct (Auth.truthy (Auth.stored_auth app)); [|reflexivity].
    now destruct (Auth.button ui (u "Logout")).
  - destruct (Auth.truthy (Auth.stored_auth app)) eqn:Ht.
    + rewrite require_login_run. cbv zeta. now rewrite Ht.
    + rewrite (require_login_registers_inputs ui app Ht). split; [|split].
      * rewrite dict_get_set_other by exact Hdiff. apply dict_get_set_same.
      * apply dict_get_set_same.
      * intros k' H1 H2. now rewrite !dict_get_set_other.
Qed.

Lemma session_writes_are_confined_witness :
  dict_get (u "theme")
    (Auth.session_state
       (snd (Auth.require_login
               {| Auth.text_input := fun label _ =>
                    if eqb label (u "Username") then u "admin" else u "admin123";
                  Auth.button := fun _ => true |}
               {| Auth.session_state := [(u "theme", Auth.VNone)];
                  Auth.widget_state := []; Auth.sidebar := [] |})))
  = Some Auth.VNone
  /\ dict_get (u "login_user")
       (Auth.widget_state
          (snd (Auth.require_login
                  {| Auth.text_input := fun label _ =>
                       if eqb label (u "Username") then u "admin" else u "admin123";
                     Auth.button := fun _ => true |}
                  {| Auth.session_state := [(u "theme", Auth.VNone)];
                     Auth.widget_state := []; Auth.sidebar := [] |})))
     = Some (u "admin").
Proof.
  destruct (session_writes_are_confined
              {| Auth.text_input := fun label _ =>
                   if eqb label (u "Username") then u "admin" else u "admin123";
                 Auth.button := fun _ => true |}
              {| Auth.session_state := [(u "theme", Auth.VNone)];
                 Auth.widget_state := []; Auth.sidebar := [] |}
              (u "theme")
              ltac:(intros H; vm_compute in H; discriminate))
    as (Hs & _ & _ & Hw).
  split; [exact Hs | exact (proj1 Hw)].
Defined.

(** X15.  [is_admin] holds exactly when the session state has, under
    the key, a dict whose ["role"] is ["admin"]; a missing key, [None],
    the empty dict or a dict without a role all give false. *)
Theorem is_admin_iff_stored_role (app : Auth.App) :
  Auth.is_admin app = true
  <-> exists d,
        dict_get Auth.AUTH_KEY (Auth.session_state app) = Some (Auth.VDict d)
        /\ dict_get (u "role") d = Some (u "admin").
Proof.
  rewrite is_admin_stored. unfold Auth.stored_auth.
  destruct (dict_get Auth.AUTH_KEY (Auth.session_state app)) as [[|d]|].
  - split; [discriminate | intros (d & H & _); discriminate].
  - destruct (dict_get (u "role") d) as [role|] eqn:Hr.
    + split.
      * intros H. apply eqb_eq in H. subst role. now exists d.
      * intros (d' & Hd & Hr'). injection Hd as <-. rewrite Hr in Hr'.
        injection Hr' as ->. apply eqb_refl.
    + split; [discriminate|].
      intros (d' & Hd & Hr'). injection Hd as <-. congruence.
  - split; [discriminate | intros (d & H & _); discriminate].
Qed.

(** X16.  [require_login] never fails on a subscript: the key is there
    when the session state is read, and the table is read only under a
    name it has. *)
Theorem require_login_no_key_error
  (ui : Auth.Ui) (app : Auth.App) (k : str) :
  fst (Auth.require_login ui app) <> Auth.KeyError k.
Proof.
  rewrite require_login_run. cbv zeta.
  destruct (Auth.truthy (Auth.stored_auth app)); [discriminate|].
  destruct (Auth.button ui (u "Login")); [|discriminate].
  destruct (Auth.login_role _ _); discriminate.
Qed.

(** * Properties of the alert explainer *)

Lemma lower_codepoint_fixed (c : codepoint) :
  Explainer.str_lower (Explainer.lower_codepoint c) = Explainer.lower_codepoint c.
Proof.
  unfold Explainer.lower_codepoint.
  destruct (c =? 304)%N eqn:E1; [reflexivity|].
  destruct (c =? 8490)%N eqn:E2; [reflexivity|].
  apply N.eqb_neq in E1, E2.
  unfold Explainer.str_lower. cbn [flat_map]. rewrite app_nil_r.
  unfold Explainer.lower_codepoint, lower_char.
  destruct ((65 <=? c) && (c <=? 90))%N eqn:Ec.
  - apply andb_true_iff in Ec as [Ha Hb].
    apply N.leb_le in Ha, Hb.
    assert (H1 : ((c + 32 =? 304) = false)%N) by (apply N.eqb_neq; lia).
    assert (H2 : ((c + 32 =? 8490) = false)%N) by (apply N.eqb_neq; lia).
    assert (H3 : ((c + 32 <=? 90) = false)%N) by (apply N.leb_gt; lia).
    now rewrite H1, H2, H3, andb_false_r.
  - apply N.eqb_neq in E1, E2. now rewrite E1, E2, Ec.
Qed.

(** Lowering twice is lowering once. *)
Lemma str_lower_idempotent (s : str) :
  Explainer.str_lower (Explainer.str_lower s) = Explainer.str_lower s.
Proof.
  induction s as [|c s IH]; [reflexivity|].
  unfold Explainer.str_lower in *. cbn [flat_map].
  rewrite flat_map_app, IH. f_equal. apply lower_codepoint_fixed.
Qed.

(** X17.  The classification of a rule name ignores letter case: a name
    and its lowered form get the same attack type; and a missing name
    is classified as the empty name is. *)
Theorem classification_ignores_case (rule_name : str) :
  Explainer._rule_to_attack_type (Some (Explainer.str_lower rule_name))
  = Explainer._rule_to_attack_type (Some rule_name)
  /\ Explainer._rule_to_attack_type None
     = Explainer._rule_to_attack_type (Some []).
Proof.
  split; [|reflexivity].
  assert (H : forall r : str, match r with c :: t => c :: t | [] => [] end = r)
    by (now intros [|c t]).
  unfold Explainer._rule_to_attack_type. cbv zeta.
  now rewrite !H, str_lower_idempotent.
Qed.

(** *** Joined lines and suffixes *)

Lemma join_app (sep : str) (xs ys : list str) :
  xs <> [] -> ys <> [] ->
  join sep (xs ++ ys) = join sep xs ++ sep ++ join sep ys.
Proof.
  intros Hx Hy. induction xs as [|x [|x' xs] IH]; [contradiction| |].
  - destruct ys as [|y ys]; [contradiction | reflexivity].
  - change (join sep ((x :: x' :: xs) ++ ys))
      with (x ++ sep ++ join sep ((x' :: xs) ++ ys)).
    rewrite IH by discriminate.
    change (join sep (x :: x' :: xs)) with (x ++ sep ++ join sep (x' :: xs)).
    now rewrite <- !app_assoc.
Qed.

Lemma prefix_of_longer (a b x y : str) :
  a ++ x = b ++ y -> List.length a <= List.length b -> exists c, b = a ++ c.
Proof.
  revert b. induction a as [|c a IH]; intros b H Hl.
  - now exists b.
  - destruct b as [|d b]; [simpl in Hl; lia|].
    simpl in H, Hl. injection H as -> H.
    destruct (IH b H ltac:(lia)) as [t ->]. now exists t.
Qed.

(** A suffix of [p ++ t] that is no longer than [t] is a suffix of
    [t]. *)
Lemma endswith_app_inv (s p t : str) :
  endswith s (p ++ t) -> List.length s <= List.length t -> endswith s t.
Proof.
  intros [q H] Hl.
  apply (f_equal (@rev codepoint)) in H. rewrite !rev_app_distr in H.
  destruct (prefix_of_longer (rev s) (rev t) (rev q) (rev p)) as [c Hc].
  - now symmetry.
  - now rewrite !length_rev.
  - exists (rev c). apply (f_equal (@rev codepoint)) in Hc.
    now rewrite rev_app_distr, !rev_involutive in Hc.
Qed.

Lemma suffixb_endswith (s t : str) : suffixb s t = true <-> endswith s t.
Proof.
  unfold suffixb, endswith. rewrite prefixb_app. split.
  - intros [post H]. exists (rev post).
    apply (f_equal (@rev codepoint)) in H.
    now rewrite rev_app_distr, !rev_involutive in H.
  - intros [pre ->]. exists (rev pre). now rewrite rev_app_distr.
Qed.

(** Refutes that a text which ends with a known string ends with
    another one. *)
Ltac refute_suffix H :=
  apply endswith_app_inv in H;
  [ apply suffixb_endswith in H; vm_compute in H; discriminate H
  | apply Nat.leb_le; vm_compute; reflexivity ].

Lemma risk_lines_not_nil (attack_type : str) : Explainer.risk_lines attack_type <> [].
Proof.
  unfold Explainer.risk_lines.
  destruct (infixb (u "Brute") attack_type); [discriminate|].
  destruct (infixb (u "Port") attack_type); [discriminate|].
  destruct (infixb (u "DDoS") attack_type || infixb (u "Traffic") attack_type);
    [discriminate|].
  destruct (infixb (u "CPU") attack_type); discriminate.
Qed.

Lemma split_before_heading (A B R F : list str) (e1 e2 e3 e4 heading : str) :
  A ++ B ++ [e1; e2; e3; e4; heading] ++ R ++ F
  = (A ++ B ++ [e1; e2; e3; e4]) ++ ([heading] ++ R) ++ F.
Proof. now rewrite <- !app_assoc. Qed.

(** The text of the template from the risk heading on. *)
Lemma template_text_parts (alert : dict Explainer.value) (attack_type : str) :
  exists pre,
    Explainer._template_explain alert attack_type
    = pre ++ nl ++ u "**Risk / Impact:**" ++ nl
      ++ join nl (Explainer.risk_lines attack_type) ++ nl
      ++ join nl (Explainer.closing_lines (Explainer.recommendation alert)).
Proof.
  assert (Hparts : exists before,
             before <> []
             /\ Explainer._template_lines alert attack_type
                = before
                  ++ ([u "**Risk / Impact:**"]
                      ++ Explainer.risk_lines attack_type)
                  ++ Explainer.closing_lines (Explainer.recommendation alert)).
  { unfold Explainer._template_lines. cbv zeta.
    rewrite split_before_heading. eexists. split; [|reflexivity].
    intros H. apply app_eq_nil in H as [H _]. discriminate. }
  destruct Hparts as (before & Hne & Hl).
  unfold Explainer._template_explain. rewrite Hl.
  rewrite join_app; [|exact Hne|discriminate].
  rewrite join_app; [|discriminate|discriminate].
  rewrite (join_app nl [u "**Risk / Impact:**"]);
    [|discriminate|apply risk_lines_not_nil].
  exists (join nl before). cbn [join]. now rewrite <- !app_assoc.
Qed.

(** X18.  The text [_template_explain] returns ends with the closing
    block (an empty line, the recommendation line and the eight lines
    that follow it) reading "Recommended" exactly when the severity of
    the alert lowers to ["high"] or ["medium"], and with the block
    reading "Optional" exactly otherwise, whatever the other fields
    and the attack type hold. *)
Theorem recommendation_follows_severity
  (alert : dict Explainer.value) (attack_type : str) :
  (endswith (nl ++ join nl (Explainer.closing_lines (u "Recommended")))
            (Explainer._template_explain alert attack_type)
   <-> Explainer.str_lower
         (Explainer.str_ (Explainer.get alert (u "severity") (Explainer.VStr [])))
       = u "high"
       \/ Explainer.str_lower
            (Explainer.str_ (Explainer.get alert (u "severity") (Explainer.VStr [])))
          = u "medium")
  /\ (endswith (nl ++ join nl (Explainer.closing_lines (u "Optional")))
               (Explainer._template_explain alert attack_type)
      <-> ~ (Explainer.str_lower
               (Explainer.str_ (Explainer.get alert (u "severity") (Explainer.VStr [])))
             = u "high"
             \/ Explainer.str_lower
                  (Explainer.str_ (Explainer.get alert (u "severity") (Explainer.VStr [])))
                = u "medium")).
Proof.
  destruct (template_text_parts alert attack_type) as [pre Ht]. rewrite Ht.
  clear Ht. unfold Explainer.recommendation, Explainer.in_list. cbv zeta.
  cbn [existsb].
  set (sev := Explainer.str_lower
                (Explainer.str_ (Explainer.get alert (u "severity") (Explainer.VStr [])))).
  assert (Hend : forall rec,
             endswith (nl ++ join nl (Explainer.closing_lines rec))
               (pre ++ nl ++ u "**Risk / Impact:**" ++ nl
                ++ join nl (Explainer.risk_lines attack_type) ++ nl
                ++ join nl (Explainer.closing_lines rec))).
  { intros rec.
    exists (pre ++ nl ++ u "**Risk / Impact:**" ++ nl
            ++ join nl (Explainer.risk_lines attack_type)).
    now rewrite <- !app_assoc. }
  assert (Hcond : (eqb sev (u "high") || (eqb sev (u "medium") || false) = true)
                  <-> sev = u "high" \/ sev = u "medium").
  { rewrite orb_false_r, orb_true_iff, !eqb_eq. tauto. }
  destruct (eqb sev (u "high") || (eqb sev (u "medium") || false)) eqn:E.
  - assert (Hc : sev = u "high" \/ sev = u "medium") by now apply Hcond.
    split; split.
    + intros _. exact Hc.
    + intros _. apply Hend.
    + intros H. exfalso. clear - H. unfold Explainer.risk_lines in H.
      destruct (infixb (u "Brute") attack_type); [refute_suffix H|].
      destruct (infixb (u "Port") attack_type); [refute_suffix H|].
      destruct (infixb (u "DDoS") attack_type || infixb (u "Traffic") attack_type);
        [refute_suffix H|].
      destruct (infixb (u "CPU") attack_type); refute_suffix H.
    + intros H. contradiction.
  - assert (Hc : ~ (sev = u "high" \/ sev = u "medium")).
    { intros H. apply Hcond in H. discriminate. }
    split; split.
    + intros H. exfalso. clear - H. unfold Explainer.risk_lines in H.
      destruct (infixb (u "Brute") attack_type); [refute_suffix H|].
      destruct (infixb (u "Port") attack_type); [refute_suffix H|].
      destruct (infixb (u "DDoS") attack_type || infixb (u "Traffic") attack_type);
        [refute_suffix H|].
      destruct (infixb (u "CPU") attack_type); refute_suffix H.
    + intros H. contradiction.
    + intros _. exact Hc.
    + intros _. apply Hend.
Qed.

(** X19.  The risk section of the template has its own text for the
    brute-force, port-scan, traffic and CPU classes only.  For a rule
    name of any form, the text built from its classification ends with
    the risk heading, the single general line "Suspicious activity that
    may indicate compromise or probing." and the closing block exactly
    when the rule is classified as a file change or as plain suspicious
    activity, whatever the fields of the alert hold. *)
Theorem file_rules_get_the_general_risk
  (alert : dict Explainer.value) (rule_name : option str) :
  endswith
    (nl ++ u "**Risk / Impact:**" ++ nl
     ++ u "- Suspicious activity that may indicate compromise or probing." ++ nl
     ++ join nl (Explainer.closing_lines (Explainer.recommendation alert)))
    (Explainer._template_explain alert (Explainer._rule_to_attack_type rule_name))
  <-> Explainer._rule_to_attack_type rule_name
      = u "Suspicious File Change / Possible Tampering"
      \/ Explainer._rule_to_attack_type rule_name = u "Suspicious Activity".
Proof.
  destruct (template_text_parts alert (Explainer._rule_to_attack_type rule_name))
    as [pre Ht].
  rewrite Ht. clear Ht.
  assert (Hrec : Explainer.recommendation alert = u "Recommended"
                 \/ Explainer.recommendation alert = u "Optional").
  { unfold Explainer.recommendation. cbv zeta.
    destruct (Explainer.in_list _ _); [now left | now right]. }
  assert (Hgen : forall at_,
             Explainer.risk_lines at_
             = [u "- Suspicious activity that may indicate compromise or probing."] ->
             endswith
               (nl ++ u "**Risk / Impact:**" ++ nl
                ++ u "- Suspicious activity that may indicate compromise or probing."
                ++ nl
                ++ join nl (Explainer.closing_lines (Explainer.recommendation alert)))
               (pre ++ nl ++ u "**Risk / Impact:**" ++ nl
                ++ join nl (Explainer.risk_lines at_) ++ nl
                ++ join nl (Explainer.closing_lines (Explainer.recommendation alert)))).
  { intros at_ ->. now exists pre. }
  unfold Explainer._rule_to_attack_type. cbv zeta.
  set (name := Explainer.str_lower _). clearbody name.
  destruct (infixb (u "brute") name).
  { split; [intros H; exfalso | intros [H | H]; vm_compute in H; discriminate].
    destruct Hrec as [Hr | Hr]; rewrite Hr in H; refute_suffix H. }
  destruct (infixb (u "port") name).
  { split; [intros H; exfalso | intros [H | H]; vm_compute in H; discriminate].
    destruct Hrec as [Hr | Hr]; rewrite Hr in H; refute_suffix H. }
  destruct (infixb (u "traffic") name || infixb (u "ddos") name).
  { split; [intros H; exfalso | intros [H | H]; vm_compute in H; discriminate].
    destruct Hrec as [Hr | Hr]; rewrite Hr in H; refute_suffix H. }
  destruct (infixb (u "cpu") name).
  { split; [intros H; exfalso | intros [H | H]; vm_compute in H; discriminate].
    destruct Hrec as [Hr | Hr]; rewrite Hr in H; refute_suffix H. }
  destruct (infixb (u "file") name || infixb (u "integrity") name).
  - split; [intros _; now left|]. intros _. apply Hgen. vm_compute. reflexivity.
  - split; [intros _; now right|]. intros _. apply Hgen. vm_compute. reflexivity.
Qed.

(** The text the explainer takes from an answer of the service. *)
Lemma explain_alert_run (env : Explainer.Env) (alert : dict Explainer.value) :
  Explainer.explain_alert env alert
  = let attack_type :=
      Explainer._rule_to_attack_type
        (Some (Explainer.str_ (Explainer.get alert (u "rule") (Explainer.VStr [])))) in
    match Explainer.api_key env with
    | Some (k :: key) =>
        match Explainer.responses_create env (k :: key) (Explainer.ai_model env)
                (Explainer.prompt alert) with
        | Explainer.AiRaises error_text =>
            Explainer.fallback_result alert attack_type (Explainer.ai_model env)
              error_text
        | Explainer.AiResponse output_text repr =>
            let text := match output_text with
                        | Some t => strip t
                        | None => repr
                        end in
            match text with
            | [] =>
                Explainer.fallback_result alert attack_type (Explainer.ai_model env)
                  (u "Empty AI response")
            | _ :: _ =>
                {| Explainer.ok := true; Explainer.message := text;
                   Explainer.model := Some (Explainer.ai_model env);
                   Explainer.used_ai := true |}
            end
        end
    | _ =>
        {| Explainer.ok := true;
           Explainer.message := Explainer._template_explain alert attack_type;
           Explainer.model := None;
           Explainer.used_ai := false |}
    end.
Proof. reflexivity. Qed.

(** X20.  Without a key, no request is made: when each of
    [OPENAI_API_KEY] and [IDS_OPENAI_API_KEY] is unset or empty, the
    result is the template explanation, with no model named and
    [used_ai] false, whatever the service would have answered. *)
Theorem explain_without_key_is_template
  (env : Explainer.Env) (alert : dict Explainer.value) :
  Explainer.getenv env (u "OPENAI_API_KEY") = None
  \/ Explainer.getenv env (u "OPENAI_API_KEY") = Some [] ->
  Explainer.getenv env (u "IDS_OPENAI_API_KEY") = None
  \/ Explainer.getenv env (u "IDS_OPENAI_API_KEY") = Some [] ->
  Explainer.explain_alert env alert
  = {| Explainer.ok := true;
       Explainer.message :=
         Explainer._template_explain alert
           (Explainer._rule_to_attack_type
              (Some (Explainer.str_
                       (Explainer.get alert (u "rule") (Explainer.VStr [])))));
       Explainer.model := None;
       Explainer.used_ai := false |}.
Proof.
  intros H1 H2. rewrite explain_alert_run. cbv zeta. unfold Explainer.api_key.
  destruct H1 as [-> | ->], H2 as [-> | ->]; reflexivity.
Qed.

Lemma explain_without_key_is_template_witness :
  Explainer.explain_alert
    {| Explainer.getenv := fun name =>
         if eqb name (u "OPENAI_API_KEY") then Some [] else None;
       Explainer.responses_create := fun _ _ _ =>
         Explainer.AiResponse (Some (u "text")) [] |}
    [(u "rule", Explainer.VStr (u "Port Scan")); (u "severity", Explainer.VStr (u "HIGH"))]
  = {| Explainer.ok := true;
       Explainer.message :=
         Explainer._template_explain
           [(u "rule", Explainer.VStr (u "Port Scan"));
            (u "severity", Explainer.VStr (u "HIGH"))]
           (Explainer._rule_to_attack_type
              (Some (Explainer.str_
                       (Explainer.get
                          [(u "rule", Explainer.VStr (u "Port Scan"));
                           (u "severity", Explainer.VStr (u "HIGH"))]
                          (u "rule") (Explainer.VStr [])))));
       Explainer.model := None;
       Explainer.used_ai := false |}.
Proof.
  apply (explain_without_key_is_template
           {| Explainer.getenv := fun name =>
                if eqb name (u "OPENAI_API_KEY") then Some [] else None;
              Explainer.responses_create := fun _ _ _ =>
                Explainer.AiResponse (Some (u "text")) [] |});
    [right; reflexivity | left; reflexivity].
Defined.

(** X21.  [OPENAI_API_KEY] comes first: when it is set and not empty,
    the value of [IDS_OPENAI_API_KEY] has no effect on the result. *)
Theorem openai_key_takes_precedence
  (env1 env2 : Explainer.Env) (alert : dict Explainer.value) (c : codepoint) (k : str) :
  Explainer.getenv env1 (u "OPENAI_API_KEY") = Some (c :: k) ->
  (forall name, name <> u "IDS_OPENAI_API_KEY" ->
                Explainer.getenv env2 name = Explainer.getenv env1 name) ->
  (forall key model text,
     Explainer.responses_create env2 key model text
     = Explainer.responses_create env1 key model text) ->
  Explainer.explain_alert env2 alert = Explainer.explain_alert env1 alert.
Proof.
  intros H1 Hg Hr. rewrite !explain_alert_run. cbv zeta.
  unfold Explainer.api_key, Explainer.ai_model.
  rewrite (Hg (u "OPENAI_API_KEY")), (Hg (u "IDS_AI_MODEL")), H1
    by (intros H; vm_compute in H; discriminate).
  cbn [Explainer.or_opt]. now rewrite Hr.
Qed.

Lemma openai_key_takes_precedence_witness :
  Explainer.explain_alert
    {| Explainer.getenv := fun name =>
         if eqb name (u "OPENAI_API_KEY") then Some (u "sk-1")
         else if eqb name (u "IDS_OPENAI_API_KEY") then Some (u "sk-2")
         else None;
       Explainer.responses_create := fun key _ _ => Explainer.AiRaises key |}
    []
  = Explainer.explain_alert
      {| Explainer.getenv := fun name =>
           if eqb name (u "OPENAI_API_KEY") then Some (u "sk-1") else None;
         Explainer.responses_create := fun key _ _ => Explainer.AiRaises key |}
      [].
Proof.
  apply (openai_key_takes_precedence
           {| Explainer.getenv := fun name =>
                if eqb name (u "OPENAI_API_KEY") then Some (u "sk-1") else None;
              Explainer.responses_create := fun key _ _ => Explainer.AiRaises key |}
           {| Explainer.getenv := fun name =>
                if eqb name (u "OPENAI_API_KEY") then Some (u "sk-1")
                else if eqb name (u "IDS_OPENAI_API_KEY") then Some (u "sk-2")
                else None;
              Explainer.responses_create := fun key _ _ => Explainer.AiRaises key |}
           [] 115%N (u "k-1")).
  - reflexivity.
  - intros name Hn. cbn [Explainer.getenv].
    destruct (eqb name (u "OPENAI_API_KEY")); [reflexivity|].
    apply eqb_neq in Hn. now rewrite Hn.
  - reflexivity.
Defined.

(** X22.  The result is marked [used_ai] exactly when a key was found,
    the service answered without an exception, and the text taken from
    the answer (its stripped [output_text], or [str()] of the answer
    when it has no such attribute) is not empty; and whenever that is
    so, the result is that text under the name of the model. *)
Theorem used_ai_iff_nonempty_answer
  (env : Explainer.Env) (alert : dict Explainer.value) :
  (Explainer.used_ai (Explainer.explain_alert env alert) = true
   <-> exists key output_text repr,
         Explainer.api_key env = Some key /\ key <> []
         /\ Explainer.responses_create env key (Explainer.ai_model env)
              (Explainer.prompt alert)
            = Explainer.AiResponse output_text repr
         /\ match output_text with
            | Some t => strip t
            | None => repr
            end <> [])
  /\ (forall key output_text repr,
        Explainer.api_key env = Some key ->
        key <> [] ->
        Explainer.responses_create env key (Explainer.ai_model env)
          (Explainer.prompt alert)
        = Explainer.AiResponse output_text repr ->
        match output_text with
        | Some t => strip t
        | None => repr
        end <> [] ->
        Explainer.explain_alert env alert
        = {| Explainer.ok := true;
             Explainer.message := match output_text with
                                  | Some t => strip t
                                  | None => repr
                                  end;
             Explainer.model := Some (Explainer.ai_model env);
             Explainer.used_ai := true |}).
Proof.
  rewrite explain_alert_run. cbv zeta. split.
  - destruct (Explainer.api_key env) as [[|c k]|] eqn:Ek.
    + split; [discriminate|]. intros (key & o & r & H & Hn & _).
      injection H as <-. contradiction.
    + destruct (Explainer.responses_create env (c :: k) (Explainer.ai_model env)
                  (Explainer.prompt alert)) as [e | o r] eqn:Er.
      * split; [discriminate|]. intros (key & o & r & H & _ & Hr & _).
        injection H as <-. congruence.
      * destruct (match o with Some t => strip t | None => r end)
          as [|x text] eqn:Et.
        -- split; [discriminate|].
           intros (key & o' & r' & H & _ & Hr & Hne).
           injection H as <-. rewrite Er in Hr. injection Hr as <- <-.
           rewrite Et in Hne. contradiction.
        -- split; [|reflexivity]. intros _.
           exists (c :: k), o, r. rewrite Et.
           split; [reflexivity|]. split; [discriminate|].
           split; [exact Er | discriminate].
    + split; [discriminate|]. intros (key & o & r & H & _). discriminate.
  - intros key o r Hk Hn Hr Ht. rewrite Hk.
    destruct key as [|c k]; [contradiction|]. rewrite Hr.
    destruct (match o with Some t => strip t | None => r end);
      [contradiction | reflexivity].
Qed.

(** X23.  [explain_alert] always reports [ok] true, and unless the
    result is marked [used_ai] its message starts with the template
    explanation for the classified rule: a failure of the service costs
    the analyst nothing but the note appended after it. *)
Theorem explanation_never_lost
  (env : Explainer.Env) (alert : dict Explainer.value) :
  Explainer.ok (Explainer.explain_alert env alert) = true
  /\ (Explainer.used_ai (Explainer.explain_alert env alert) = true
      \/ exists tail,
           Explainer.message (Explainer.explain_alert env alert)
           = Explainer._template_explain alert
               (Explainer._rule_to_attack_type
                  (Some (Explainer.str_
                           (Explainer.get alert (u "rule") (Explainer.VStr [])))))
             ++ tail).
Proof.
  rewrite explain_alert_run. cbv zeta.
  destruct (Explainer.api_key env) as [[|c k]|].
  - split; [reflexivity|]. right. exists []. cbn [Explainer.message].
    now rewrite app_nil_r.
  - destruct (Explainer.responses_create env (c :: k) (Explainer.ai_model env)
                (Explainer.prompt alert)) as [e | o r].
    + split; [reflexivity|]. right. eexists. reflexivity.
    + destruct (match o with Some t => strip t | None => r end).
      * split; [reflexivity|]. right. eexists. reflexivity.
      * split; [reflexivity|]. now left.
  - split; [reflexivity|]. right. exists []. cbn [Explainer.message].
    now rewrite app_nil_r.
Qed.

(** X24.  An answer whose [output_text] is empty or whitespace
    throughout is not used: the result is the fallback, marked
    [used_ai] false, with the template followed by the note that names
    the error "Empty AI response". *)
Theorem blank_answer_falls_back
  (env : Explainer.Env) (alert : dict Explainer.value)
  (c : codepoint) (k t repr : str) :
  Explainer.api_key env = Some (c :: k) ->
  Explainer.responses_create env (c :: k) (Explainer.ai_model env)
    (Explainer.prompt alert)
  = Explainer.AiResponse (Some t) repr ->
  forallb isspace t = true ->
  Explainer.explain_alert env alert
  = {| Explainer.ok := true;
       Explainer.message :=
         Explainer._template_explain alert
           (Explainer._rule_to_attack_type
              (Some (Explainer.str_
                       (Explainer.get alert (u "rule") (Explainer.VStr [])))))
         ++ nl ++ nl ++ u "(" ++ Explainer.warning_sign
         ++ u " AI failed, fallback used. Error: " ++ u "Empty AI response"
         ++ u ")";
       Explainer.model := Some (Explainer.ai_model env);
       Explainer.used_ai := false |}.
Proof.
  intros Hk Hr Hb. rewrite explain_alert_run. cbv zeta. rewrite Hk, Hr.
  apply strip_nil_iff in Hb. rewrite Hb. reflexivity.
Qed.

Lemma blank_answer_falls_back_witness :
  Explainer.explain_alert
    {| Explainer.getenv := fun name =>
         if eqb name (u "IDS_OPENAI_API_KEY") then Some (u "sk") else None;
       Explainer.responses_create := fun _ _ _ =>
         Explainer.AiResponse (Some (u " " ++ nl)) (u "Response()") |}
    []
  = {| Explainer.ok := true;
       Explainer.message :=
         Explainer._template_explain []
           (Explainer._rule_to_attack_type
              (Some (Explainer.str_
                       (Explainer.get [] (u "rule") (Explainer.VStr [])))))
         ++ nl ++ nl ++ u "(" ++ Explainer.warning_sign
         ++ u " AI failed, fallback used. Error: " ++ u "Empty AI response"
         ++ u ")";
       Explainer.model := Some (u "gpt-4o-mini");
       Explainer.used_ai := false |}.
Proof.
  apply (blank_answer_falls_back
           {| Explainer.getenv := fun name =>
                if eqb name (u "IDS_OPENAI_API_KEY") then Some (u "sk") else None;
              Explainer.responses_create := fun _ _ _ =>
                Explainer.AiResponse (Some (u " " ++ nl)) (u "Response()") |}
           [] 115%N (u "k") (u " " ++ nl) (u "Response()"));
    reflexivity.
Defined.
